(** * Pintos userprog/syscall.c: the system-call trap handler

    A shallow embedding of [src/pintos/src/userprog/syscall.c].  The handler
    runs on the calling process's kernel thread; it is embedded as a
    computation over an explicit kernel [world] that may return, terminate
    the thread, power the machine off, or fault in the kernel.

    The target is the 32-bit x86 of Pintos: [int] is a 32-bit two's
    complement integer, [unsigned] and pointers are 32-bit naturals, every
    conversion and pointer addition is written out with its wrap-around. *)

From stdpp Require Import base list strings.
From Stdlib Require Import ZArith Lia.

Open Scope Z_scope.

(** ** Machine integers and pointers *)

Definition WORD : Z := 2 ^ 32.
Definition INT_MAX : Z := 2 ^ 31 - 1.
Definition INT_MIN : Z := - 2 ^ 31.

(** [(unsigned) x] and [(void * ) x]: the value modulo 2^32. *)
Definition to_unsigned (x : Z) : Z := x mod WORD.

(** [(int) x]: the 32-bit two's complement reading of [x]. *)
Definition to_int (x : Z) : Z := (x + 2 ^ 31) mod WORD - 2 ^ 31.

(** [p + k] on a [void *] (byte granularity, GCC), wrapping at 2^32. *)
Definition ptr_add (p k : Z) : Z := (p + k) mod WORD.

Definition NULL : Z := 0.

(** The bounds hard-wired in [check_address]. *)
Definition USER_BASE : Z := 0x08048000.
Definition KERNEL_BASE : Z := 0xc0000000.

Definition is_pointer (a : Z) : Prop := 0 <= a < WORD.

(** ** User memory: one byte per address *)

Definition memory := Z -> Z.

Definition load8 (m : memory) (a : Z) : Z := m a mod 256.

Definition store8 (m : memory) (a v : Z) : memory :=
  fun x => if Z.eqb x a then v mod 256 else m x.

(** [*(int * ) a] on little-endian x86. *)
Definition load_int (m : memory) (a : Z) : Z :=
  to_int (load8 m a
          + 2 ^ 8 * load8 m (ptr_add a 1)
          + 2 ^ 16 * load8 m (ptr_add a 2)
          + 2 ^ 24 * load8 m (ptr_add a 3)).

(** ** The collaborators of the handler

    Everything [syscall.c] calls but does not define: the process
    subsystem, the file system, the console and keyboard, [strcmp].  Each
    is an operation on the collaborators' own state [ext]; the ones that
    take a user pointer also see user memory.  Pointers to [struct file]
    and [struct thread] are 32-bit values, [NULL] when absent. *)

Record Subsystems : Type := {
  ext : Type;
  (* process.c *)
  impl_process_execute : Z -> memory -> ext -> Z * ext;
  impl_get_child_process : Z -> ext -> Z;
  impl_sema_down_load : Z -> ext -> ext;
  impl_is_load : Z -> ext -> bool;
  impl_process_wait : Z -> ext -> Z * ext;
  impl_process_add_file : Z -> ext -> Z * ext;
  impl_process_get_file : Z -> ext -> Z;
  impl_process_close_file : Z -> ext -> ext;
  (* filesys/filesys.c, filesys/file.c *)
  impl_filesys_create : Z -> Z -> memory -> ext -> bool * ext;
  impl_filesys_remove : Z -> memory -> ext -> bool * ext;
  impl_filesys_open : Z -> memory -> ext -> Z * ext;
  impl_file_deny_write : Z -> ext -> ext;
  impl_file_length : Z -> ext -> Z;
  impl_file_read : Z -> Z -> Z -> memory -> ext -> Z * memory * ext;
  impl_file_write : Z -> Z -> Z -> memory -> ext -> Z * ext;
  impl_file_seek : Z -> Z -> ext -> ext;
  impl_file_tell : Z -> ext -> Z;
  (* devices/input.c, lib/kernel/console.c *)
  impl_input_getc : ext -> Z * ext;
  impl_putbuf : Z -> Z -> memory -> ext -> ext;
  (* lib/string.c, on a user string and a kernel string *)
  impl_strcmp : Z -> string -> memory -> Z;
}.

(** ** What an execution does, in order *)

Inductive event : Type :=
| EvLoad (addr : Z)                       (* *(int * ) addr *)
| EvStore (addr byte : Z)                 (* *(uint8_t * ) addr = byte *)
| EvPrintf (name : string) (status : Z)   (* "%s: exit(%d)\n" *)
| EvThreadExit
| EvPowerOff
| EvLockAcquire
| EvLockRelease
| EvProcessExecute (cmd_line : Z)
| EvGetChildProcess (tid : Z)
| EvSemaDown (cp : Z)
| EvProcessWait (tid : Z)
| EvProcessAddFile (f : Z)
| EvProcessGetFile (fd : Z)
| EvProcessCloseFile (fd : Z)
| EvFilesysCreate (name size : Z)
| EvFilesysRemove (name : Z)
| EvFilesysOpen (name : Z)
| EvFileDenyWrite (f : Z)
| EvFileLength (f : Z)
| EvFileRead (f buffer size : Z)
| EvFileWrite (f buffer size : Z)
| EvFileSeek (f position : Z)
| EvFileTell (f : Z)
| EvInputGetc (byte : Z)
| EvPutbuf (buffer size : Z).

(** Modelled from the spec: lib/syscall-nr.h is not among the sources.  The
    numbers count up from 0 in the order of the spec's per-syscall table,
    the order of the [case] labels of [syscall_handler]. *)
Definition SYS_HALT : Z := 0.
Definition SYS_EXIT : Z := 1.
Definition SYS_EXEC : Z := 2.
Definition SYS_WAIT : Z := 3.
Definition SYS_CREATE : Z := 4.
Definition SYS_REMOVE : Z := 5.
Definition SYS_OPEN : Z := 6.
Definition SYS_FILESIZE : Z := 7.
Definition SYS_READ : Z := 8.
Definition SYS_WRITE : Z := 9.
Definition SYS_SEEK : Z := 10.
Definition SYS_TELL : Z := 11.
Definition SYS_CLOSE : Z := 12.

(** [struct intr_frame], the two fields the handler touches. *)
Record intr_frame : Type := mkFrame { esp : Z; eax : Z }.

Section Syscall.

Variable K : Subsystems.

(** The kernel as one syscall sees it.  [filesys_lock] is [true] while the
    running thread holds the lock (waiting for another holder is outside
    this sequential view); [cur_name] and [cur_exit_status] are the fields
    of [thread_current ()]. *)
Record world : Type := mkWorld {
  user_mem : memory;
  ext_state : ext K;
  filesys_lock : bool;
  cur_name : string;
  cur_exit_status : Z;
  trace : list event;
}.

(** How a call ends: it returns, or it never comes back. *)
Inductive outcome (A : Type) : Type :=
| Returned (a : A) (w : world)
| ThreadExited (w : world)     (* thread_exit () *)
| PoweredOff (w : world)       (* shutdown_power_off () *)
| Faulted (w : world).         (* the kernel used a null pointer *)

Arguments Returned {A} a w.
Arguments ThreadExited {A} w.
Arguments PoweredOff {A} w.
Arguments Faulted {A} w.

Definition M (A : Type) : Type := world -> outcome A.

Definition ret {A} (a : A) : M A := fun w => Returned a w.

Definition bind {A B} (m : M A) (k : A -> M B) : M B :=
  fun w =>
    match m w with
    | Returned a w' => k a w'
    | ThreadExited w' => ThreadExited w'
    | PoweredOff w' => PoweredOff w'
    | Faulted w' => Faulted w'
    end.

Notation "x <- m ;; k" := (bind m (fun x => k))
  (at level 100, m at next level, right associativity).
Notation "m ;;; k" := (bind m (fun _ => k))
  (at level 100, right associativity).

(** *** State updates *)

Definition log (e : event) (w : world) : world :=
  mkWorld (user_mem w) (ext_state w) (filesys_lock w)
          (cur_name w) (cur_exit_status w) (trace w ++ [e]).

Definition with_ext (e : ext K) (w : world) : world :=
  mkWorld (user_mem w) e (filesys_lock w)
          (cur_name w) (cur_exit_status w) (trace w).

Definition with_mem (m : memory) (w : world) : world :=
  mkWorld m (ext_state w) (filesys_lock w)
          (cur_name w) (cur_exit_status w) (trace w).

Definition with_lock (b : bool) (w : world) : world :=
  mkWorld (user_mem w) (ext_state w) b
          (cur_name w) (cur_exit_status w) (trace w).

Definition with_exit_status (s : Z) (w : world) : world :=
  mkWorld (user_mem w) (ext_state w) (filesys_lock w)
          (cur_name w) s (trace w).

(** *** Primitive steps *)

(** [*(int * ) a] *)
Definition deref_int (a : Z) : M Z :=
  fun w => Returned (load_int (user_mem w) a) (log (EvLoad a) w).

(** [*(uint8_t * ) a = v] *)
Definition assign_byte (a v : Z) : M unit :=
  fun w => Returned tt (with_mem (store8 (user_mem w) a v) (log (EvStore a v) w)).

(** [thread_exit ()] and [shutdown_power_off ()] do not return. *)
Definition thread_exit {A} : M A :=
  fun w => ThreadExited (log EvThreadExit w).

Definition shutdown_power_off {A} : M A :=
  fun w => PoweredOff (log EvPowerOff w).

(** Modelled from the spec: threads/synch.c is not among the sources.  The
    lock is a mutual-exclusion lock: [lock_acquire] makes the running
    thread its holder, [lock_release] frees it. *)
Definition lock_acquire : M unit :=
  fun w => Returned tt (with_lock true (log EvLockAcquire w)).

Definition lock_release : M unit :=
  fun w => Returned tt (with_lock false (log EvLockRelease w)).

(** A call that only changes the collaborators' state. *)
Definition ext_call {A} (e : event) (f : ext K -> A * ext K) : M A :=
  fun w => let '(a, s) := f (ext_state w) in
           Returned a (with_ext s (log e w)).

Definition process_execute (cmd_line : Z) : M Z :=
  fun w => ext_call (EvProcessExecute cmd_line)
             (impl_process_execute K cmd_line (user_mem w)) w.

Definition get_child_process (tid : Z) : M Z :=
  ext_call (EvGetChildProcess tid)
    (fun s => (impl_get_child_process K tid s, s)).

Definition process_wait (tid : Z) : M Z :=
  ext_call (EvProcessWait tid) (impl_process_wait K tid).

Definition process_add_file (f : Z) : M Z :=
  ext_call (EvProcessAddFile f) (impl_process_add_file K f).

Definition process_get_file (fd : Z) : M Z :=
  ext_call (EvProcessGetFile fd)
    (fun s => (impl_process_get_file K fd s, s)).

Definition process_close_file (fd : Z) : M unit :=
  ext_call (EvProcessCloseFile fd)
    (fun s => (tt, impl_process_close_file K fd s)).

Definition filesys_create (name size : Z) : M bool :=
  fun w => ext_call (EvFilesysCreate name size)
             (impl_filesys_create K name size (user_mem w)) w.

Definition filesys_remove (name : Z) : M bool :=
  fun w => ext_call (EvFilesysRemove name)
             (impl_filesys_remove K name (user_mem w)) w.

Definition filesys_open (name : Z) : M Z :=
  fun w => ext_call (EvFilesysOpen name)
             (impl_filesys_open K name (user_mem w)) w.

Definition file_deny_write (f : Z) : M unit :=
  ext_call (EvFileDenyWrite f) (fun s => (tt, impl_file_deny_write K f s)).

Definition file_length (f : Z) : M Z :=
  ext_call (EvFileLength f) (fun s => (impl_file_length K f s, s)).

Definition file_read (f buffer size : Z) : M Z :=
  fun w =>
    let '(n, m, s) := impl_file_read K f buffer size (user_mem w) (ext_state w) in
    Returned n (with_mem m (with_ext s (log (EvFileRead f buffer size) w))).

Definition file_write (f buffer size : Z) : M Z :=
  fun w => ext_call (EvFileWrite f buffer size)
             (impl_file_write K f buffer size (user_mem w)) w.

Definition input_getc : M Z :=
  fun w => let '(c, s) := impl_input_getc K (ext_state w) in
           Returned c (with_ext s (log (EvInputGetc c) w)).

Definition putbuf (buffer size : Z) : M unit :=
  fun w => ext_call (EvPutbuf buffer size)
             (fun s => (tt, impl_putbuf K buffer size (user_mem w) s)) w.

Definition strcmp_cur_name (file : Z) : M Z :=
  fun w => Returned (impl_strcmp K file (cur_name w) (user_mem w)) w.

(** [sema_down (&cp->load)].  Modelled from the spec: threads/synch.c is
    not among the sources.  The semaphore is the [load] field inside the
    child's record, so [sema_down] is handed an address inside [*cp] and
    works on the memory there; with a null [cp] there is no record at that
    address and the kernel faults. *)
Definition sema_down_load (cp : Z) : M unit :=
  if Z.eqb cp NULL then (fun w => Faulted (log (EvSemaDown cp) w))
  else ext_call (EvSemaDown cp) (fun s => (tt, impl_sema_down_load K cp s)).

(** [cp->is_load] *)
Definition is_load (cp : Z) : M bool :=
  fun w => Returned (impl_is_load K cp (ext_state w)) w.

(** [file_seek (f, position)] and [file_tell (f)].  Modelled from the
    spec: filesys/file.c is not among the sources.  The file system's
    [seek (handle, position)] and [tell (handle)] take a handle and act on
    the position kept in it; a null handle has none and the kernel
    faults. *)
Definition file_seek (f position : Z) : M unit :=
  if Z.eqb f NULL then (fun w => Faulted (log (EvFileSeek f position) w))
  else ext_call (EvFileSeek f position)
         (fun s => (tt, impl_file_seek K f position s)).

Definition file_tell (f : Z) : M Z :=
  if Z.eqb f NULL then (fun w => Faulted (log (EvFileTell f) w))
  else ext_call (EvFileTell f) (fun s => (impl_file_tell K f s, s)).

(** ** syscall.c *)

(** [exit]: record the status, print the notice, leave the thread. *)
Definition exit {A} (status : Z) : M A :=
  (fun w => Returned tt (with_exit_status status w)) ;;;
  (fun w => Returned tt (log (EvPrintf (cur_name w) status) w)) ;;;
  thread_exit.

Definition check_address (addr : Z) : M unit :=
  if (to_unsigned addr <? 0x8048000) || (to_unsigned addr >=? 0xc0000000)
  then exit (-1)
  else ret tt.

(** The body of the [for] loop of [get_argument], [n] iterations from
    index [i] on.  [arg] is the caller's [int arg[3]]; an index past its
    end would overrun it in C and is left unchanged here. *)
Fixpoint get_argument_loop (n : nat) (esp : Z) (arg : list Z) (i : Z)
  : M (list Z) :=
  match n with
  | O => ret arg
  | S n' =>
      check_address (ptr_add esp (4 + 4 * i)) ;;;
      v <- deref_int (ptr_add esp (4 + 4 * i)) ;;
      get_argument_loop n' esp (<[Z.to_nat i := v]> arg) (i + 1)
  end.

(** [for (i = 0; i < count; i++)]: [count] iterations, none when
    [count <= 0]. *)
Definition get_argument (esp : Z) (arg : list Z) (count : Z) : M (list Z) :=
  get_argument_loop (Z.to_nat count) esp arg 0.

Definition halt {A} : M A := shutdown_power_off.

Definition create (file initial_size : Z) : M bool :=
  if Z.eqb file NULL then ret false
  else filesys_create file initial_size.

Definition remove (file : Z) : M bool :=
  if Z.eqb file NULL then ret false
  else filesys_remove file.

Definition exec (cmd_line : Z) : M Z :=
  tid <- process_execute cmd_line ;;
  cp <- get_child_process tid ;;
  sema_down_load cp ;;;
  if Z.eqb cp NULL then ret (-1)
  else
    loaded <- is_load cp ;;
    if Bool.eqb loaded false then ret (-1)
    else ret tid.

Definition wait (tid : Z) : M Z := process_wait tid.

Definition open (file : Z) : M Z :=
  if Z.eqb file NULL then ret (-1)
  else
    lock_acquire ;;;
    f <- filesys_open file ;;
    if Z.eqb f NULL then
      lock_release ;;;
      ret (-1)
    else
      c <- strcmp_cur_name file ;;
      (if Z.eqb c 0 then file_deny_write f else ret tt) ;;;
      results <- process_add_file f ;;
      lock_release ;;;
      if Z.eqb results 64 then ret (-1)
      else ret results.

Definition filesize (fd : Z) : M Z :=
  f <- process_get_file fd ;;
  if Z.eqb f NULL then ret (-1)
  else file_length f.

(** The [for] loop of [read] on standard input: [n] iterations from index
    [i] on.  [i] is an [int], [size] is [unsigned]; [i < size] compares
    them as unsigned values, so the loop runs [size] times. *)
Fixpoint read_stdin_loop (n : nat) (buffer : Z) (i : Z) : M unit :=
  match n with
  | O => ret tt
  | S n' =>
      c <- input_getc ;;
      assign_byte (ptr_add buffer i) c ;;;
      read_stdin_loop n' buffer (to_int (i + 1))
  end.

Definition read (fd buffer size : Z) : M Z :=
  lock_acquire ;;;
  f <- process_get_file fd ;;
  if Z.eqb fd 0 then
    read_stdin_loop (Z.to_nat size) buffer 0 ;;;
    lock_release ;;;
    ret (to_int size)
  else
    if Z.eqb f NULL then
      lock_release ;;;
      ret (-1)
    else
      sizes <- file_read f buffer size ;;
      lock_release ;;;
      ret sizes.

Definition write (fd buffer size : Z) : M Z :=
  lock_acquire ;;;
  f <- process_get_file fd ;;
  if Z.eqb fd 1 then
    putbuf buffer size ;;;
    lock_release ;;;
    ret (to_int size)
  else
    if Z.eqb f NULL then
      lock_release ;;;
      ret (-1)
    else
      sizes <- file_write f buffer size ;;
      lock_release ;;;
      ret sizes.

Definition seek (fd position : Z) : M unit :=
  f <- process_get_file fd ;;
  file_seek f position.

Definition tell (fd : Z) : M Z :=
  f <- process_get_file fd ;;
  r <- file_tell f ;;
  ret (to_unsigned r).

Definition close (fd : Z) : M unit := process_close_file fd.

(** [arg[i]] *)
Definition arg_at (arg : list Z) (i : nat) : Z := default 0 (arg !! i).

(** [f->eax = v], [eax] being a [uint32_t]. *)
Definition set_eax (f : intr_frame) (v : Z) : intr_frame :=
  mkFrame (esp f) (to_unsigned v).

Definition of_bool (b : bool) : Z := if b then 1 else 0.

(** [int arg[3]] before [get_argument] fills it; no entry is used before
    it is written. *)
Definition arg_uninit : list Z := [0; 0; 0].

Definition syscall_handler (f : intr_frame) : M intr_frame :=
  check_address (esp f) ;;;
  syscall_number <- deref_int (esp f) ;;
  if Z.eqb syscall_number SYS_HALT then
    halt
  else if Z.eqb syscall_number SYS_EXIT then
    arg <- get_argument (esp f) arg_uninit 1 ;;
    exit (arg_at arg 0)
  else if Z.eqb syscall_number SYS_EXEC then
    arg <- get_argument (esp f) arg_uninit 1 ;;
    check_address (arg_at arg 0) ;;;
    r <- exec (to_unsigned (arg_at arg 0)) ;;
    ret (set_eax f r)
  else if Z.eqb syscall_number SYS_WAIT then
    arg <- get_argument (esp f) arg_uninit 1 ;;
    r <- wait (arg_at arg 0) ;;
    ret (set_eax f r)
  else if Z.eqb syscall_number SYS_CREATE then
    arg <- get_argument (esp f) arg_uninit 2 ;;
    check_address (arg_at arg 0) ;;;
    r <- create (to_unsigned (arg_at arg 0)) (to_unsigned (arg_at arg 1)) ;;
    ret (set_eax f (of_bool r))
  else if Z.eqb syscall_number SYS_REMOVE then
    arg <- get_argument (esp f) arg_uninit 1 ;;
    check_address (arg_at arg 0) ;;;
    r <- remove (to_unsigned (arg_at arg 0)) ;;
    ret (set_eax f (of_bool r))
  else if Z.eqb syscall_number SYS_OPEN then
    arg <- get_argument (esp f) arg_uninit 1 ;;
    check_address (arg_at arg 0) ;;;
    r <- open (to_unsigned (arg_at arg 0)) ;;
    ret (set_eax f r)
  else if Z.eqb syscall_number SYS_FILESIZE then
    arg <- get_argument (esp f) arg_uninit 1 ;;
    r <- filesize (arg_at arg 0) ;;
    ret (set_eax f r)
  else if Z.eqb syscall_number SYS_READ then
    arg <- get_argument (esp f) arg_uninit 3 ;;
    check_address (arg_at arg 1) ;;;
    r <- read (arg_at arg 0) (to_unsigned (arg_at arg 1))
              (to_unsigned (arg_at arg 2)) ;;
    ret (set_eax f r)
  else if Z.eqb syscall_number SYS_WRITE then
    arg <- get_argument (esp f) arg_uninit 3 ;;
    check_address (arg_at arg 1) ;;;
    r <- write (arg_at arg 0) (to_unsigned (arg_at arg 1))
               (to_unsigned (arg_at arg 2)) ;;
    ret (set_eax f r)
  else if Z.eqb syscall_number SYS_SEEK then
    arg <- get_argument (esp f) arg_uninit 2 ;;
    seek (arg_at arg 0) (to_unsigned (arg_at arg 1)) ;;;
    ret f
  else if Z.eqb syscall_number SYS_TELL then
    arg <- get_argument (esp f) arg_uninit 1 ;;
    r <- tell (arg_at arg 0) ;;
    ret (set_eax f r)
  else if Z.eqb syscall_number SYS_CLOSE then
    arg <- get_argument (esp f) arg_uninit 1 ;;
    close (arg_at arg 0) ;;;
    ret f
  else
    thread_exit.


(** ** Vocabulary of the properties *)

(** [w] with the events [evs] appended to its trace. *)
Definition log_all (evs : list event) (w : world) : world :=
  mkWorld (user_mem w) (ext_state w) (filesys_lock w)
          (cur_name w) (cur_exit_status w) (trace w ++ evs).

(** The kernel after [exit (status)] ran in [w]. *)
Definition exited_with (status : Z) (w : world) : world :=
  log EvThreadExit
    (log (EvPrintf (cur_name w) status) (with_exit_status status w)).

(** The [n] bytes the keyboard hands to [n] successive [input_getc], and
    the keyboard afterwards. *)
Fixpoint stdin_bytes (n : nat) (s : ext K) : list Z * ext K :=
  match n with
  | O => ([], s)
  | S n' =>
      let '(c, s1) := impl_input_getc K s in
      let '(cs, s2) := stdin_bytes n' s1 in
      (c :: cs, s2)
  end.

(** What [open] gets from its collaborators on a non-null name: the handle
    from the file system, the state after the optional deny-write, and the
    descriptor from [process_add_file]. *)
Definition opened (file : Z) (w : world) : Z * ext K :=
  impl_filesys_open K file (user_mem w) (ext_state w).

Definition denied (file : Z) (w : world) : ext K :=
  if Z.eqb (impl_strcmp K file (cur_name w) (user_mem w)) 0
  then impl_file_deny_write K (fst (opened file w)) (snd (opened file w))
  else snd (opened file w).

Definition allocated (file : Z) (w : world) : Z * ext K :=
  impl_process_add_file K (fst (opened file w)) (denied file w).

End Syscall.

Arguments Returned {K A} a w.
Arguments ThreadExited {K A} w.
Arguments PoweredOff {K A} w.
Arguments Faulted {K A} w.
Arguments mkWorld {K} _ _ _ _ _ _.
Arguments user_mem {K} w.
Arguments ext_state {K} w.
Arguments filesys_lock {K} w.
Arguments cur_name {K} w.
Arguments cur_exit_status {K} w.
Arguments trace {K} w.
Arguments log {K} e w.
Arguments with_ext {K} e w.
Arguments with_mem {K} m w.
Arguments with_lock {K} b w.
Arguments with_exit_status {K} s w.
Arguments ret {K A} a w.
Arguments bind {K A B} m k w.
Arguments exit {K A} status w.
Arguments thread_exit {K A} w.
Arguments halt {K A} w.
Arguments log_all {K} evs w.
Arguments exited_with {K} status w.
Arguments stdin_bytes K n s : assert.
Arguments opened {K} file w.
Arguments denied {K} file w.
Arguments allocated {K} file w.

(** The user address range of [check_address]. *)
Definition valid_user_addr (a : Z) : Prop := USER_BASE <= a < KERNEL_BASE.

#[global] Instance valid_user_addr_dec (a : Z) : Decision (valid_user_addr a).
Proof. unfold valid_user_addr. apply _. Defined.

(** Argument slot [i] above the stack pointer. *)
Definition slot (esp i : Z) : Z := esp + 4 + 4 * i.

(** The reads of the [n] slots from slot [i] on, in order. *)
Definition slot_loads_from (esp : Z) (i n : Z) : list event :=
  (fun j => EvLoad (slot esp j)) <$> seqZ i n.

(** The reads of slots [0 .. n-1], in order. *)
Definition slot_loads (esp : Z) (n : Z) : list event :=
  slot_loads_from esp 0 n.

(** What the standard-input loop of [read] does with the bytes [cs], the
    first going to [buffer + i]: its trace, and user memory afterwards. *)
Fixpoint stdin_events (buffer i : Z) (cs : list Z) : list event :=
  match cs with
  | [] => []
  | c :: cs' =>
      EvInputGetc c :: EvStore (ptr_add buffer i) c
        :: stdin_events buffer (i + 1) cs'
  end.

Fixpoint store_bytes (m : memory) (buffer i : Z) (cs : list Z) : memory :=
  match cs with
  | [] => m
  | c :: cs' => store_bytes (store8 m (ptr_add buffer i) c) buffer (i + 1) cs'
  end.

(** What [exit (status)] leaves in the trace. *)
Definition exit_events (name : string) (status : Z) : list event :=
  [EvPrintf name status; EvThreadExit].

Definition is_load_event (e : event) : bool :=
  match e with EvLoad _ => true | _ => false end.

(** The five file-system calls that change or read file contents. *)
Definition is_mutating_call (e : event) : bool :=
  match e with
  | EvFilesysCreate _ _ | EvFilesysRemove _ | EvFilesysOpen _
  | EvFileRead _ _ _ | EvFileWrite _ _ _ => true
  | _ => false
  end.

(** Every call into filesys/filesys.c and filesys/file.c. *)
Definition is_filesys_call (e : event) : bool :=
  match e with
  | EvFilesysCreate _ _ | EvFilesysRemove _ | EvFilesysOpen _
  | EvFileDenyWrite _ | EvFileLength _
  | EvFileRead _ _ _ | EvFileWrite _ _ _
  | EvFileSeek _ _ | EvFileTell _ => true
  | _ => false
  end.

(** Replays a trace from lock state [held]: does every call selected by
    [p] happen while the lock is held? *)
Fixpoint calls_locked (p : event -> bool) (held : bool) (t : list event)
  : bool :=
  match t with
  | [] => true
  | EvLockAcquire :: t' => calls_locked p true t'
  | EvLockRelease :: t' => calls_locked p false t'
  | e :: t' => (if p e then held else true) && calls_locked p held t'
  end.

(** The lock state a trace ends in. *)
Fixpoint lock_after (held : bool) (t : list event) : bool :=
  match t with
  | [] => held
  | EvLockAcquire :: t' => lock_after true t'
  | EvLockRelease :: t' => lock_after false t'
  | _ :: t' => lock_after held t'
  end.

(** A handler that started in [w] is back at its boundary in [w']: the
    lock is free, and what the handler added to the trace made every call
    into the file system between an acquire and the release after it. *)
Definition lock_free_boundary {K} (w w' : world K) : Prop :=
  filesys_lock w' = false /\
  exists evs, trace w' = trace w ++ evs /\
    calls_locked is_filesys_call false evs = true /\
    lock_after false evs = false.

(** The numbers [syscall_handler] has a [case] for. *)
Definition syscall_numbers : list Z :=
  [SYS_HALT; SYS_EXIT; SYS_EXEC; SYS_WAIT; SYS_CREATE; SYS_REMOVE; SYS_OPEN;
   SYS_FILESIZE; SYS_READ; SYS_WRITE; SYS_SEEK; SYS_TELL; SYS_CLOSE].

Definition recognized (n : Z) : bool := existsb (Z.eqb n) syscall_numbers.

(** The syscalls that take a user pointer, with the slot it is in. *)
Definition pointer_slot (n : Z) : option Z :=
  if existsb (Z.eqb n) [SYS_EXEC; SYS_CREATE; SYS_REMOVE; SYS_OPEN] then Some 0
  else if existsb (Z.eqb n) [SYS_READ; SYS_WRITE] then Some 1
  else None.

(** ** A small kernel to run the handler on

    One concrete choice of collaborators: a descriptor table of 64
    entries whose descriptors 0 and 1 are the console, files named by the
    first byte of their name, a keyboard queue, and child processes that
    need a free page to be created. *)

Record toy_state : Type := mkToy {
  toy_fdt : list Z;               (* handles of descriptors 2, 3, ... *)
  toy_files : list Z;             (* the files on disk *)
  toy_keys : list Z;              (* keys typed and not yet read *)
  toy_children : list (Z * bool); (* child tid, did it load *)
  toy_free_pages : nat;
}.

Definition TOY_THREADS : Z := 0xc0100000.
Definition TOY_FILES : Z := 0xc0200000.

Definition toy_has_file (name : Z) (s : toy_state) : bool :=
  existsb (Z.eqb name) (toy_files s).

Definition toy_process_execute (cmd : Z) (m : memory) (s : toy_state)
  : Z * toy_state :=
  match toy_free_pages s with
  | O => (-1, s)
  | S p =>
      let tid := 3 + Z.of_nat (length (toy_children s)) in
      (tid, mkToy (toy_fdt s) (toy_files s) (toy_keys s)
                  ((tid, toy_has_file (load8 m cmd) s) :: toy_children s) p)
  end.

Definition toy_get_child_process (tid : Z) (s : toy_state) : Z :=
  if existsb (fun c => Z.eqb (fst c) tid) (toy_children s)
  then TOY_THREADS + tid else NULL.

Definition toy_is_load (cp : Z) (s : toy_state) : bool :=
  existsb (fun c => Z.eqb (TOY_THREADS + fst c) cp && snd c) (toy_children s).

Definition toy_process_add_file (f : Z) (s : toy_state) : Z * toy_state :=
  if Z.of_nat (length (toy_fdt s)) + 2 <? 64
  then (Z.of_nat (length (toy_fdt s)) + 2,
        mkToy (toy_fdt s ++ [f]) (toy_files s) (toy_keys s)
              (toy_children s) (toy_free_pages s))
  else (64, s).

Definition toy_process_get_file (fd : Z) (s : toy_state) : Z :=
  if 2 <=? fd then nth (Z.to_nat (fd - 2)) (toy_fdt s) NULL else NULL.

Definition toy_process_close_file (fd : Z) (s : toy_state) : toy_state :=
  if 2 <=? fd
  then mkToy (<[Z.to_nat (fd - 2) := NULL]> (toy_fdt s)) (toy_files s)
             (toy_keys s) (toy_children s) (toy_free_pages s)
  else s.

Definition toy_filesys_create (name size : Z) (m : memory) (s : toy_state)
  : bool * toy_state :=
  if toy_has_file (load8 m name) s then (false, s)
  else (true, mkToy (toy_fdt s) (load8 m name :: toy_files s) (toy_keys s)
                    (toy_children s) (toy_free_pages s)).

Definition toy_filesys_remove (name : Z) (m : memory) (s : toy_state)
  : bool * toy_state :=
  if toy_has_file (load8 m name) s
  then (true, mkToy (toy_fdt s)
                    (filter (fun x => x <> load8 m name) (toy_files s))
                    (toy_keys s) (toy_children s) (toy_free_pages s))
  else (false, s).

Definition toy_filesys_open (name : Z) (m : memory) (s : toy_state)
  : Z * toy_state :=
  if toy_has_file (load8 m name) s then (TOY_FILES + load8 m name, s)
  else (NULL, s).

Definition toy_input_getc (s : toy_state) : Z * toy_state :=
  match toy_keys s with
  | [] => (0, s)
  | k :: ks => (k, mkToy (toy_fdt s) (toy_files s) ks
                         (toy_children s) (toy_free_pages s))
  end.

Definition toy_strcmp (file : Z) (name : string) (m : memory) : Z :=
  match name with
  | EmptyString => load8 m file
  | String c _ => load8 m file - Z.of_N (Ascii.N_of_ascii c)
  end.

Definition toy : Subsystems := {|
  ext := toy_state;
  impl_process_execute := toy_process_execute;
  impl_get_child_process := toy_get_child_process;
  impl_sema_down_load := fun _ s => s;
  impl_is_load := toy_is_load;
  impl_process_wait := fun _ s => (-1, s);
  impl_process_add_file := toy_process_add_file;
  impl_process_get_file := toy_process_get_file;
  impl_process_close_file := toy_process_close_file;
  impl_filesys_create := toy_filesys_create;
  impl_filesys_remove := toy_filesys_remove;
  impl_filesys_open := toy_filesys_open;
  impl_file_deny_write := fun _ s => s;
  impl_file_length := fun _ _ => 0;
  impl_file_read := fun _ _ _ m s => (0, m, s);
  impl_file_write := fun _ _ size _ s => (size, s);
  impl_file_seek := fun _ _ s => s;
  impl_file_tell := fun _ _ => 0;
  impl_input_getc := toy_input_getc;
  impl_putbuf := fun _ _ _ s => s;
  impl_strcmp := toy_strcmp;
|}.

(** [*(int * ) a = v], to lay out a user stack. *)
Definition store_int (m : memory) (a v : Z) : memory :=
  store8 (store8 (store8 (store8 m a v)
    (a + 1) (v / 2 ^ 8)) (a + 2) (v / 2 ^ 16)) (a + 3) (v / 2 ^ 24).

(** A user stack at [TOY_ESP] holding a syscall number and three
    arguments, over zeroed memory. *)
Definition TOY_ESP : Z := 0xbffffe00.

Definition toy_stack (number a0 a1 a2 : Z) : memory :=
  store_int (store_int (store_int (store_int (fun _ => 0)
    TOY_ESP number) (TOY_ESP + 4) a0) (TOY_ESP + 8) a1) (TOY_ESP + 12) a2.

(** The same stack with the one-letter file name "a" above it, at
    [TOY_NAME]. *)
Definition TOY_NAME : Z := TOY_ESP + 16.

Definition toy_mem (number a0 a1 a2 : Z) : memory :=
  store8 (toy_stack number a0 a1 a2) TOY_NAME 97.

(** A process "sh" with nothing open, file "a" on disk, keys "hi" typed,
    one page free; and the same with no page left for a new thread. *)
Definition toy_boot : toy_state := mkToy [] [97] [104; 105] [] 1.
Definition toy_no_pages : toy_state := mkToy [] [97] [104; 105] [] 0.

(** The process at a handler boundary: lock free, nothing traced yet. *)
Definition toy_world_at (s : toy_state) (m : memory) : world toy :=
  @mkWorld toy m s false "sh" 0 [].

Definition toy_world (m : memory) : world toy := toy_world_at toy_boot m.

Definition toy_frame : intr_frame := mkFrame TOY_ESP 0.

(** ** Vocabulary of the properties of whole executions *)

(** The kernel a call ends in, however it ends. *)
Definition final_world {K A} (o : outcome K A) : world K :=
  match o with
  | Returned _ w | ThreadExited w | PoweredOff w | Faulted w => w
  end.

(** Whatever [m] does and however it ends, the events it adds to the trace
    all satisfy [P]. *)
Definition adds {K A} (P : event -> Prop) (m : M K A) : Prop :=
  forall w, exists evs,
    trace (final_world (m w)) = trace w ++ evs /\ Forall P evs.

(** However [m] ends, the lock is as it was when [m] started. *)
Definition keeps_lock {K A} (m : M K A) : Prop :=
  forall w, filesys_lock (final_world (m w)) = filesys_lock w.


Definition not_lock_event (e : event) : Prop :=
  match e with EvLockAcquire | EvLockRelease => False | _ => True end.

(** A read of user memory is at an address of the user range. *)
Definition load_in_user_range (e : event) : Prop :=
  match e with EvLoad a => valid_user_addr a | _ => True end.

(** An event that is not a read of user memory. *)
Definition not_load (e : event) : Prop :=
  match e with EvLoad _ => False | _ => True end.

(** Whenever [m] returns, what it returns satisfies [Q]. *)
Definition returns_with {K A} (Q : A -> Prop) (m : M K A) : Prop :=
  forall w x w', m w = Returned x w' -> Q x.

(** However [m] ends, the part [part] of the kernel is as it was when [m]
    started. *)
Definition preserves {K A X} (part : world K -> X) (m : M K A) : Prop :=
  forall w, part (final_world (m w)) = part w.

(** Unless [m] ends the thread, the part [part] of the kernel is as it was
    when [m] started. *)
Definition preserves_unless_exit {K A X} (part : world K -> X) (m : M K A)
  : Prop :=
  forall w, match m w with
            | ThreadExited _ => True
            | o => part (final_world o) = part w
            end.

(** * Properties *)

(** ** Integers and pointers *)

Lemma WORD_eq : WORD = 4294967296.
Proof. reflexivity. Qed.

Lemma to_unsigned_pointer (a : Z) : is_pointer a -> to_unsigned a = a.
Proof. unfold is_pointer, to_unsigned. intros H. apply Z.mod_small; lia. Qed.

Lemma ptr_add_is_pointer (p k : Z) : is_pointer (ptr_add p k).
Proof. unfold is_pointer, ptr_add. apply Z.mod_pos_bound. rewrite WORD_eq; lia. Qed.

Lemma to_int_small (x : Z) : INT_MIN <= x <= INT_MAX -> to_int x = x.
Proof.
  unfold INT_MIN, INT_MAX, to_int. intros H.
  rewrite Z.mod_small; rewrite ?WORD_eq; lia.
Qed.

Lemma to_int_large (x : Z) : INT_MAX < x < WORD -> to_int x = x - WORD.
Proof.
  unfold INT_MAX, to_int. rewrite WORD_eq. intros H.
  replace (x + 2 ^ 31) with ((x - 2 ^ 31) + 1 * 4294967296) by lia.
  rewrite Z.mod_add by lia. rewrite Z.mod_small; lia.
Qed.

Lemma ptr_add_to_int (b x : Z) : ptr_add b (to_int x) = ptr_add b x.
Proof.
  unfold ptr_add, to_int.
  replace (b + ((x + 2 ^ 31) mod WORD - 2 ^ 31))
    with ((x + 2 ^ 31) mod WORD + (b - 2 ^ 31)) by lia.
  rewrite Zplus_mod_idemp_l. f_equal. lia.
Qed.

(** A slot address accepted by the range check did not wrap. *)
Lemma slot_address (p k : Z) :
  is_pointer p -> 0 <= k < USER_BASE ->
  (valid_user_addr (ptr_add p k) <-> valid_user_addr (p + k)) /\
  (valid_user_addr (p + k) -> ptr_add p k = p + k).
Proof.
  unfold is_pointer, valid_user_addr, USER_BASE, KERNEL_BASE, ptr_add.
  rewrite WORD_eq. intros Hp Hk.
  destruct (Z_lt_ge_dec (p + k) 4294967296) as [Hlt | Hge].
  - rewrite Z.mod_small by lia. split; [tauto | lia].
  - replace (p + k) with ((p + k - 4294967296) + 1 * 4294967296) at 1 by lia.
    rewrite Z.mod_add by lia. rewrite Z.mod_small by lia.
    split; [lia | lia].
Qed.

Section Facts.

Variable K : Subsystems.

Implicit Types (w : world K) (a esp fd : Z).

(** ** [check_address] and [exit] *)

Lemma exit_outcome (A : Type) (status : Z) w :
  @exit K A status w = ThreadExited (exited_with status w).
Proof. reflexivity. Qed.

Lemma exited_with_trace status w :
  trace (exited_with status w) = trace w ++ exit_events (cur_name w) status.
Proof. unfold exited_with, exit_events. simpl. by rewrite <- app_assoc. Qed.

Lemma check_address_valid a w :
  valid_user_addr (to_unsigned a) -> check_address K a w = Returned tt w.
Proof.
  unfold valid_user_addr, USER_BASE, KERNEL_BASE, check_address. intros H.
  destruct (Z.ltb_spec (to_unsigned a) 0x8048000); [lia |].
  destruct (Z.geb_spec (to_unsigned a) 0xc0000000); [lia |].
  reflexivity.
Qed.

Lemma check_address_invalid a w :
  ~ valid_user_addr (to_unsigned a) ->
  check_address K a w = ThreadExited (exited_with (-1) w).
Proof.
  unfold valid_user_addr, USER_BASE, KERNEL_BASE, check_address. intros H.
  destruct (Z.ltb_spec (to_unsigned a) 0x8048000); [reflexivity |].
  destruct (Z.geb_spec (to_unsigned a) 0xc0000000); [reflexivity | lia].
Qed.

(** C1.  For every raw pointer value [a], [check_address] returns to its
    caller if and only if [USER_BASE <= a < KERNEL_BASE], the bounds being
    0x08048000 and 0xC0000000, and then it leaves the kernel as it was; for
    every other [a], the null pointer included, it does not return: the
    thread has exited through [exit (-1)], with exit status -1 recorded and
    the termination notice printed. *)
Theorem check_address_accepts_user_range a w :
  is_pointer a ->
  USER_BASE = 0x08048000 /\ KERNEL_BASE = 0xC0000000 /\
  ((exists w', check_address K a w = Returned tt w') <->
     USER_BASE <= a < KERNEL_BASE) /\
  (USER_BASE <= a < KERNEL_BASE -> check_address K a w = Returned tt w) /\
  (~ USER_BASE <= a < KERNEL_BASE ->
     exists w', check_address K a w = ThreadExited w' /\
       cur_exit_status w' = -1 /\
       trace w' = trace w ++ [EvPrintf (cur_name w) (-1); EvThreadExit] /\
       user_mem w' = user_mem w /\ ext_state w' = ext_state w /\
       filesys_lock w' = filesys_lock w).
Proof.
  intros Ha. split; [reflexivity |]. split; [reflexivity |].
  assert (Hin : USER_BASE <= a < KERNEL_BASE -> check_address K a w = Returned tt w).
  { intros H. apply check_address_valid. by rewrite to_unsigned_pointer. }
  assert (Hout : ~ USER_BASE <= a < KERNEL_BASE ->
                 check_address K a w = ThreadExited (exited_with (-1) w)).
  { intros H. apply check_address_invalid. by rewrite to_unsigned_pointer. }
  split; [| split].
  - split.
    + intros [w' Hw']. destruct (decide (USER_BASE <= a < KERNEL_BASE)) as [|Hn]; [done |].
      rewrite (Hout Hn) in Hw'. discriminate.
    + intros H. exists w. by apply Hin.
  - exact Hin.
  - intros Hn. exists (exited_with (-1) w). split; [by apply Hout |].
    split; [reflexivity |]. split; [apply exited_with_trace |]. done.
Qed.

(** ** Running the monad *)

Lemma bind_returned {A B} (m : M K A) (k : A -> M K B) w (x : A) w' :
  m w = Returned x w' -> bind m k w = k x w'.
Proof. unfold bind. by intros ->. Qed.

Lemma bind_exited {A B} (m : M K A) (k : A -> M K B) w w' :
  m w = ThreadExited w' -> bind m k w = ThreadExited w'.
Proof. unfold bind. by intros ->. Qed.

Lemma log_all_nil w : log_all [] w = w.
Proof. destruct w. unfold log_all. simpl. by rewrite app_nil_r. Qed.

Lemma log_as_log_all e w : log e w = log_all [e] w.
Proof. reflexivity. Qed.

Lemma log_all_app evs1 evs2 w :
  log_all evs2 (log_all evs1 w) = log_all (evs1 ++ evs2) w.
Proof. unfold log_all. simpl. by rewrite app_assoc. Qed.

(** ** [get_argument] *)

Lemma slot_loads_from_cons esp i n :
  0 < n ->
  slot_loads_from esp i n = EvLoad (slot esp i) :: slot_loads_from esp (i + 1) (n - 1).
Proof.
  intros Hn. unfold slot_loads_from. rewrite seqZ_cons by lia.
  by rewrite fmap_cons, <- Z.add_1_r, <- Z.sub_1_r.
Qed.

Lemma slot_check esp i w :
  is_pointer esp -> 0 <= i -> 4 + 4 * i < USER_BASE ->
  (valid_user_addr (slot esp i) ->
     ptr_add esp (4 + 4 * i) = slot esp i /\
     check_address K (ptr_add esp (4 + 4 * i)) w = Returned tt w) /\
  (~ valid_user_addr (slot esp i) ->
     check_address K (ptr_add esp (4 + 4 * i)) w = ThreadExited (exited_with (-1) w)).
Proof.
  intros Hesp Hi Hb.
  destruct (slot_address esp (4 + 4 * i) Hesp) as [Hiff Heq]; [lia |].
  replace (esp + (4 + 4 * i)) with (slot esp i) in * by (unfold slot; lia).
  split; intros Hv.
  - split; [by apply Heq |]. apply check_address_valid.
    rewrite to_unsigned_pointer by apply ptr_add_is_pointer. by apply Hiff.
  - apply check_address_invalid.
    rewrite to_unsigned_pointer by apply ptr_add_is_pointer. by rewrite Hiff.
Qed.

Lemma get_argument_loop_ok (n : nat) : forall esp arg i w,
  is_pointer esp -> 0 <= i -> 4 + 4 * (i + Z.of_nat n) <= USER_BASE ->
  (forall j, i <= j < i + Z.of_nat n -> valid_user_addr (slot esp j)) ->
  exists arg',
    get_argument_loop K n esp arg i w
      = Returned arg' (log_all (slot_loads_from esp i (Z.of_nat n)) w) /\
    length arg' = length arg /\
    (forall j, i <= j < i + Z.of_nat n -> (Z.to_nat j < length arg)%nat ->
       arg' !! Z.to_nat j = Some (load_int (user_mem w) (slot esp j))) /\
    (forall j, 0 <= j < i -> arg' !! Z.to_nat j = arg !! Z.to_nat j).
Proof.
  induction n as [| n IH]; intros esp arg i w Hesp Hi Hb Hv.
  - exists arg. simpl. rewrite log_all_nil.
    split; [reflexivity |]. split; [reflexivity |]. split; [| done].
    intros j Hj; lia.
  - destruct (slot_check esp i w Hesp Hi ltac:(lia)) as [Hok _].
    destruct Hok as [Ha Hc]; [apply Hv; lia |].
    cbn [get_argument_loop]. rewrite (bind_returned _ _ _ _ _ Hc).
    unfold bind at 1, deref_int at 1. rewrite Ha.
    destruct (IH esp (<[Z.to_nat i := load_int (user_mem w) (slot esp i)]> arg)
                (i + 1) (log (EvLoad (slot esp i)) w) Hesp ltac:(lia) ltac:(lia))
      as (arg' & Hrun & Hlen & Hnew & Hold).
    { intros j Hj. apply Hv. lia. }
    exists arg'. rewrite Hrun, log_as_log_all, log_all_app.
    rewrite (slot_loads_from_cons esp i (Z.of_nat (S n))) by lia.
    replace (Z.of_nat (S n) - 1) with (Z.of_nat n) by lia.
    split; [reflexivity |]. rewrite length_insert in Hlen, Hnew.
    split; [exact Hlen |]. split.
    + intros j Hj Hlt. destruct (decide (j = i)) as [-> | Hne].
      * rewrite Hold by lia. by rewrite list_lookup_insert_eq.
      * apply Hnew; [lia | done].
    + intros j Hj. rewrite Hold by lia.
      apply list_lookup_insert_ne. lia.
Qed.

Lemma get_argument_loop_bad (n : nat) : forall esp arg i k w,
  is_pointer esp -> 0 <= i -> 4 + 4 * (i + Z.of_nat n) <= USER_BASE ->
  i <= k < i + Z.of_nat n ->
  (forall j, i <= j < k -> valid_user_addr (slot esp j)) ->
  ~ valid_user_addr (slot esp k) ->
  get_argument_loop K n esp arg i w
    = ThreadExited (exited_with (-1) (log_all (slot_loads_from esp i (k - i)) w)).
Proof.
  induction n as [| n IH]; intros esp arg i k w Hesp Hi Hb Hk Hv Hbad; [lia |].
  destruct (slot_check esp i w Hesp Hi ltac:(lia)) as [Hok Hko].
  cbn [get_argument_loop].
  destruct (decide (k = i)) as [-> | Hne].
  - rewrite (bind_exited _ _ _ _ (Hko Hbad)).
    replace (i - i) with 0 by lia. unfold slot_loads_from. simpl.
    by rewrite log_all_nil.
  - destruct Hok as [Ha Hc]; [apply Hv; lia |].
    rewrite (bind_returned _ _ _ _ _ Hc).
    unfold bind at 1, deref_int at 1. rewrite Ha.
    rewrite (IH esp _ (i + 1) k) by (try done; try lia; intros j Hj; apply Hv; lia).
    rewrite log_as_log_all, log_all_app.
    rewrite (slot_loads_from_cons esp i (k - i)) by lia.
    by replace (k - (i + 1)) with (k - i - 1) by lia.
Qed.

(** C2.  For every stack pointer [esp] and argument count [n] from 0 to 3:
    when every slot address [esp + 4 + 4*i], [i < n], is in the user range,
    [get_argument] returns with [arg[i]] the 32-bit word at
    [esp + 4 + 4*i] for each [i < n], having read exactly these slots in
    order; when slot [i] is the first whose address the validator rejects,
    the process is terminated with status -1 after the reads of slots
    [0 .. i-1] only: slot [i] and the slots after it are never read. *)
Theorem get_argument_marshals esp (arg : list Z) (n : Z) w :
  is_pointer esp -> 0 <= n <= 3 -> length arg = 3%nat ->
  ((forall i, 0 <= i < n -> valid_user_addr (esp + 4 + 4 * i)) ->
     exists arg' w',
       get_argument K esp arg n w = Returned arg' w' /\
       length arg' = 3%nat /\
       (forall i, 0 <= i < n ->
          arg' !! Z.to_nat i = Some (load_int (user_mem w) (esp + 4 + 4 * i))) /\
       trace w' = trace w ++ ((fun i => EvLoad (esp + 4 + 4 * i)) <$> seqZ 0 n) /\
       user_mem w' = user_mem w /\ cur_exit_status w' = cur_exit_status w) /\
  (forall i, 0 <= i < n ->
     (forall j, 0 <= j < i -> valid_user_addr (esp + 4 + 4 * j)) ->
     ~ valid_user_addr (esp + 4 + 4 * i) ->
     exists w',
       get_argument K esp arg n w = ThreadExited w' /\
       cur_exit_status w' = -1 /\
       trace w' = trace w ++ ((fun j => EvLoad (esp + 4 + 4 * j)) <$> seqZ 0 i)
                          ++ [EvPrintf (cur_name w) (-1); EvThreadExit]).
Proof.
  intros Hesp Hn Hlen. unfold get_argument. split.
  - intros Hv.
    destruct (get_argument_loop_ok (Z.to_nat n) esp arg 0 w Hesp ltac:(lia))
      as (arg' & Hrun & Hlen' & Hnew & _).
    { unfold USER_BASE. lia. }
    { intros j Hj. apply Hv. lia. }
    exists arg', (log_all (slot_loads_from esp 0 (Z.of_nat (Z.to_nat n))) w).
    split; [exact Hrun |]. split; [congruence |]. split.
    + intros i Hi. apply Hnew; lia.
    + rewrite Z2Nat.id by lia. done.
  - intros i Hi Hv Hbad.
    exists (exited_with (-1) (log_all (slot_loads_from esp 0 (i - 0)) w)).
    split.
    + apply get_argument_loop_bad; try done; try lia. unfold USER_BASE. lia.
    + split; [reflexivity |]. rewrite exited_with_trace. simpl.
      rewrite Z.sub_0_r. by rewrite <- app_assoc.
Qed.

(** ** [read] on standard input *)

Lemma ptr_add_succ b i j :
  ptr_add b i = ptr_add b j -> ptr_add b (to_int (i + 1)) = ptr_add b (j + 1).
Proof.
  rewrite ptr_add_to_int. unfold ptr_add. intros H.
  rewrite !Z.add_assoc.
  rewrite <- (Zplus_mod_idemp_l (b + i)), <- (Zplus_mod_idemp_l (b + j)).
  by rewrite H.
Qed.

Lemma ptr_add_apart b i d :
  0 < d < WORD -> ptr_add b (i + d) <> ptr_add b i.
Proof.
  unfold ptr_add. rewrite WORD_eq. intros Hd Heq.
  assert (H : (b + (i + d) - (b + i)) mod 4294967296 = 0).
  { rewrite Zminus_mod, Heq, Z.sub_diag. reflexivity. }
  replace (b + (i + d) - (b + i)) with d in H by lia.
  rewrite Z.mod_small in H; lia.
Qed.

Lemma read_stdin_loop_run (n : nat) : forall buffer i j w,
  ptr_add buffer i = ptr_add buffer j ->
  read_stdin_loop K n buffer i w
    = Returned tt
        (mkWorld
           (store_bytes (user_mem w) buffer j (fst (stdin_bytes K n (ext_state w))))
           (snd (stdin_bytes K n (ext_state w)))
           (filesys_lock w) (cur_name w) (cur_exit_status w)
           (trace w ++ stdin_events buffer j (fst (stdin_bytes K n (ext_state w))))).
Proof.
  induction n as [| n IH]; intros buffer i j w Hij.
  - simpl. unfold ret. destruct w; simpl. by rewrite app_nil_r.
  - cbn [read_stdin_loop stdin_bytes].
    unfold bind at 1, input_getc at 1.
    destruct (impl_input_getc K (ext_state w)) as [c s1].
    unfold bind at 1, assign_byte at 1.
    rewrite (IH buffer (to_int (i + 1)) (j + 1)) by (by apply ptr_add_succ).
    simpl. destruct (stdin_bytes K n s1) as [cs s2]. simpl.
    rewrite Hij, <- !app_assoc. reflexivity.
Qed.

Lemma stdin_bytes_length (n : nat) : forall s,
  length (fst (stdin_bytes K n s)) = n.
Proof.
  induction n as [| n IH]; intros s; [reflexivity |].
  simpl. destruct (impl_input_getc K s) as [c s1].
  specialize (IH s1). destruct (stdin_bytes K n s1). simpl in *. by rewrite IH.
Qed.

Lemma store_bytes_other (cs : list Z) : forall m buffer i x,
  (forall k, 0 <= k < Z.of_nat (length cs) -> x <> ptr_add buffer (i + k)) ->
  store_bytes m buffer i cs x = m x.
Proof.
  induction cs as [| c cs IH]; intros m buffer i x Hx; [reflexivity |].
  simpl. rewrite IH.
  - unfold store8. destruct (Z.eqb_spec x (ptr_add buffer i)) as [-> | _]; [| done].
    exfalso. apply (Hx 0); [simpl length; lia |]. by rewrite Z.add_0_r.
  - intros k Hk. replace (i + 1 + k) with (i + (k + 1)) by lia.
    apply Hx. simpl length. lia.
Qed.

Lemma store_bytes_lookup (cs : list Z) : forall m buffer i k,
  Z.of_nat (length cs) <= WORD -> 0 <= k < Z.of_nat (length cs) ->
  load8 (store_bytes m buffer i cs) (ptr_add buffer (i + k))
    = nth (Z.to_nat k) cs 0 mod 256.
Proof.
  induction cs as [| c cs IH]; intros m buffer i k Hlen Hk; [simpl in Hk; lia |].
  simpl length in *. destruct (decide (k = 0)) as [-> | Hne].
  - simpl. rewrite Z.add_0_r. unfold load8. rewrite store_bytes_other.
    + unfold store8. rewrite Z.eqb_refl. apply Z.mod_mod. lia.
    + intros d Hd. apply not_eq_sym.
      replace (i + 1 + d) with (i + (1 + d)) by lia. apply ptr_add_apart. lia.
  - replace (Z.to_nat k) with (S (Z.to_nat (k - 1))) by lia.
    replace (i + k) with (i + 1 + (k - 1)) by lia.
    cbn [store_bytes nth]. apply IH; lia.
Qed.

Lemma read_stdin_run buffer size w :
  read K 0 buffer size w
    = Returned (to_int size)
        (mkWorld
           (store_bytes (user_mem w) buffer 0
              (fst (stdin_bytes K (Z.to_nat size) (ext_state w))))
           (snd (stdin_bytes K (Z.to_nat size) (ext_state w)))
           false (cur_name w) (cur_exit_status w)
           (trace w ++ [EvLockAcquire; EvProcessGetFile 0]
              ++ stdin_events buffer 0
                   (fst (stdin_bytes K (Z.to_nat size) (ext_state w)))
              ++ [EvLockRelease])).
Proof.
  unfold read. unfold bind at 1, lock_acquire at 1.
  unfold bind at 1, process_get_file at 1, ext_call at 1.
  rewrite Z.eqb_refl.
  unfold bind at 1. rewrite (read_stdin_loop_run _ buffer 0 0) by done.
  unfold bind, lock_release, ret, with_lock, log. simpl.
  rewrite <- !app_assoc. reflexivity.
Qed.

(** C7, as amended.  For every buffer [buffer] and every size [n] an
    [unsigned] can hold, whatever the descriptor table holds:
    [read (0, buffer, n)] returns; it has taken [n] bytes from the keyboard,
    one [input_getc] each, and stored byte [k] at [buffer + k] for each
    [k < n], leaving the rest of user memory as it was; the [int] it returns
    is [n] when [n <= INT_MAX], and [n - 2^32] above that. *)
Theorem read_stdin_fills_buffer buffer (n : Z) w :
  0 <= n < WORD ->
  exists r w',
    read K 0 buffer n w = Returned r w' /\
    (n <= INT_MAX -> r = n) /\
    (INT_MAX < n -> r = n - WORD) /\
    length (fst (stdin_bytes K (Z.to_nat n) (ext_state w))) = Z.to_nat n /\
    (forall k, 0 <= k < n ->
       load8 (user_mem w') (ptr_add buffer k)
         = nth (Z.to_nat k) (fst (stdin_bytes K (Z.to_nat n) (ext_state w))) 0
           mod 256) /\
    (forall x, (forall k, 0 <= k < n -> x <> ptr_add buffer k) ->
       user_mem w' x = user_mem w x) /\
    ext_state w' = snd (stdin_bytes K (Z.to_nat n) (ext_state w)) /\
    trace w' = trace w ++ [EvLockAcquire; EvProcessGetFile 0]
                 ++ stdin_events buffer 0
                      (fst (stdin_bytes K (Z.to_nat n) (ext_state w)))
                 ++ [EvLockRelease] /\
    filesys_lock w' = false.
Proof.
  intros Hn. eexists _, _. split; [apply read_stdin_run |].
  pose proof (stdin_bytes_length (Z.to_nat n) (ext_state w)) as Hlen.
  split; [| split; [| split; [exact Hlen | split; [| split]]]].
  - intros Hle. apply to_int_small. unfold INT_MIN. lia.
  - intros Hgt. apply to_int_large. lia.
  - intros k Hk. simpl user_mem.
    rewrite <- (Z.add_0_l k) at 1. apply store_bytes_lookup; rewrite Hlen; lia.
  - intros x Hx. simpl user_mem. apply store_bytes_other.
    intros k Hk. rewrite Z.add_0_l. apply Hx. rewrite Hlen in Hk. lia.
  - done.
Qed.

(** ** The lock around [open], [read] and [write] *)

Lemma calls_locked_stdin held (cs : list Z) : forall buffer i t,
  calls_locked is_filesys_call held (stdin_events buffer i cs ++ t)
    = calls_locked is_filesys_call held t.
Proof. induction cs as [| c cs IH]; intros buffer i t; [done |]. simpl. apply IH. Qed.

Lemma lock_after_stdin held (cs : list Z) : forall buffer i t,
  lock_after held (stdin_events buffer i cs ++ t) = lock_after held t.
Proof. induction cs as [| c cs IH]; intros buffer i t; [done |]. simpl. apply IH. Qed.

Ltac run_handler :=
  unfold bind, ret, lock_acquire, lock_release, filesys_open, filesys_create,
    filesys_remove, strcmp_cur_name, file_deny_write, process_add_file,
    process_get_file, process_close_file, file_read, file_write, file_length,
    putbuf, ext_call, with_lock, with_ext, with_mem, log;
  simpl.

Ltac at_boundary :=
  split; [reflexivity |];
  eexists; split; [simpl; rewrite <- ?app_assoc; reflexivity |];
  split; reflexivity.

Lemma open_boundary file w :
  filesys_lock w = false ->
  exists r w', open K file w = Returned r w' /\ lock_free_boundary w w'.
Proof.
  intros Hfree. unfold open. destruct (Z.eqb file NULL).
  { exists (-1), w. split; [reflexivity |]. split; [exact Hfree |].
    exists []. by rewrite app_nil_r. }
  run_handler.
  destruct (impl_filesys_open K file (user_mem w) (ext_state w)) as [f s1].
  destruct (Z.eqb f NULL); [eexists _, _; split; [reflexivity | at_boundary] |].
  simpl.
  destruct (Z.eqb (impl_strcmp K file (cur_name w) (user_mem w)) 0); simpl;
    match goal with |- context [impl_process_add_file K ?h ?st] =>
      destruct (impl_process_add_file K h st) as [results s2] end;
    destruct (Z.eqb results 64);
    eexists _, _; (split; [reflexivity | at_boundary]).
Qed.

Lemma read_boundary fd buffer size w :
  exists r w', read K fd buffer size w = Returned r w' /\ lock_free_boundary w w'.
Proof.
  destruct (Z.eqb_spec fd 0) as [-> | Hfd].
  - eexists _, _. split; [apply read_stdin_run |].
    split; [reflexivity |]. eexists. split; [reflexivity |].
    simpl. by rewrite calls_locked_stdin, lock_after_stdin.
  - unfold read. rewrite (proj2 (Z.eqb_neq fd 0) Hfd). run_handler.
    destruct (Z.eqb (impl_process_get_file K fd (ext_state w)) NULL);
      [eexists _, _; split; [reflexivity | at_boundary] |].
    match goal with |- context [impl_file_read K ?h ?b ?n ?m ?st] =>
      destruct (impl_file_read K h b n m st) as [[sizes m'] s1] end.
    eexists _, _; split; [reflexivity | at_boundary].
Qed.

Lemma write_boundary fd buffer size w :
  exists r w', write K fd buffer size w = Returned r w' /\ lock_free_boundary w w'.
Proof.
  unfold write. run_handler. destruct (Z.eqb fd 1).
  { eexists _, _; split; [reflexivity | at_boundary]. }
  destruct (Z.eqb (impl_process_get_file K fd (ext_state w)) NULL);
    [eexists _, _; split; [reflexivity | at_boundary] |].
  match goal with |- context [impl_file_write K ?h ?b ?n ?m ?st] =>
    destruct (impl_file_write K h b n m st) as [sizes s1] end.
  eexists _, _; split; [reflexivity | at_boundary].
Qed.

(** C5.  Entered with the lock free, [open], [read] and [write] each
    return to their caller, for every argument and every answer of the
    collaborators (null file from [filesys_open], descriptor not resolved,
    descriptor table full included), with the lock free again; whatever
    they called in the file system, they called between acquiring the lock
    and releasing it. *)
Theorem open_read_write_release_lock w :
  filesys_lock w = false ->
  (forall file,
     exists r w', open K file w = Returned r w' /\ lock_free_boundary w w') /\
  (forall fd buffer size,
     exists r w', read K fd buffer size w = Returned r w' /\
                  lock_free_boundary w w') /\
  (forall fd buffer size,
     exists r w', write K fd buffer size w = Returned r w' /\
                  lock_free_boundary w w').
Proof.
  intros Hfree. split; [| split].
  - intros file. by apply open_boundary.
  - intros fd buffer size. apply read_boundary.
  - intros fd buffer size. apply write_boundary.
Qed.

(** ** The result of [open] *)

(** C8.  Given that the descriptor service never hands out a negative
    number, [open] returns -1 exactly when the name is null, or
    [filesys_open] gives no file, or [process_add_file] answers 64, its
    sign that the table of 64 entries is full; in every other case it
    returns the descriptor [process_add_file] allocated, which is [>= 0]. *)
Theorem open_returns_descriptor_or_minus_one file w :
  (forall f s, 0 <= fst (impl_process_add_file K f s)) ->
  exists r w',
    open K file w = Returned r w' /\
    (r = -1 <->
       file = NULL \/ fst (opened file w) = NULL \/ fst (allocated file w) = 64) /\
    (r <> -1 -> r = fst (allocated file w) /\ 0 <= r).
Proof.
  intros Hfd. unfold open.
  destruct (Z.eqb_spec file NULL) as [Hnull | Hname].
  { exists (-1), w. split; [reflexivity |]. split; [| done]. split; auto. }
  pose proof (Hfd (fst (opened file w)) (denied file w)) as Hpos.
  unfold allocated, denied, opened in *. run_handler.
  destruct (impl_filesys_open K file (user_mem w) (ext_state w)) as [f s1].
  simpl in *. destruct (Z.eqb_spec f NULL) as [Hf | Hf].
  { eexists _, _. split; [reflexivity |]. split; [| done]. split; auto. }
  simpl.
  destruct (Z.eqb (impl_strcmp K file (cur_name w) (user_mem w)) 0); simpl in *;
    match goal with |- context [impl_process_add_file K ?h ?st] =>
      destruct (impl_process_add_file K h st) as [results s2] end;
    simpl in *;
    (destruct (Z.eqb_spec results 64) as [H64 | H64];
       eexists _, _; (split; [reflexivity |]); (split; [| intros; split]);
       [split; [auto | intros [? | [? | ?]]] | ..]; try done; try lia).
Qed.

(** ** The dispatcher *)

Lemma valid_is_pointer a : valid_user_addr a -> is_pointer a.
Proof.
  unfold valid_user_addr, is_pointer, USER_BASE, KERNEL_BASE.
  rewrite WORD_eq. lia.
Qed.

Lemma null_invalid : ~ valid_user_addr (to_unsigned 0).
Proof.
  unfold valid_user_addr, USER_BASE, KERNEL_BASE.
  change (to_unsigned 0) with 0. lia.
Qed.

(** C9.  For every system-call number the handler has no [case] for, read
    from a valid stack pointer, the handler ends the calling thread with
    [thread_exit] and nothing else: unlike [exit (-1)] it leaves the exit
    status of the process record as it was and prints no termination
    notice. *)
Theorem unknown_syscall_exits_thread f w :
  valid_user_addr (esp f) ->
  recognized (load_int (user_mem w) (esp f)) = false ->
  exists w',
    syscall_handler K f w = ThreadExited w' /\
    cur_exit_status w' = cur_exit_status w /\
    trace w' = trace w ++ [EvLoad (esp f); EvThreadExit] /\
    user_mem w' = user_mem w /\ ext_state w' = ext_state w /\
    filesys_lock w' = filesys_lock w /\
    ThreadExited w' <> @exit K intr_frame (-1) (log (EvLoad (esp f)) w).
Proof.
  intros Hesp Hnum. unfold syscall_handler.
  unfold bind at 1.
  rewrite check_address_valid
    by (by rewrite to_unsigned_pointer by by apply valid_is_pointer).
  unfold bind at 1, deref_int at 1.
  unfold recognized, syscall_numbers in Hnum. cbn [existsb] in Hnum.
  repeat match type of Hnum with
         | (_ || _) = false =>
             apply orb_false_elim in Hnum; destruct Hnum as [-> Hnum]
         end.
  exists (log EvThreadExit (log (EvLoad (esp f)) w)).
  split; [reflexivity |]. split; [reflexivity |].
  split; [simpl; by rewrite <- app_assoc |].
  repeat (split; [reflexivity |]).
  rewrite exit_outcome. intros Heq.
  apply (f_equal (fun o => match o with
                           | ThreadExited w' => length (trace w')
                           | _ => 0%nat
                           end)) in Heq.
  simpl in Heq. rewrite !length_app in Heq. simpl in Heq. lia.
Qed.

Lemma first_invalid_slot esp (n : nat) :
  (forall j, 0 <= j < Z.of_nat n -> valid_user_addr (slot esp j)) \/
  (exists k, 0 <= k < Z.of_nat n /\ ~ valid_user_addr (slot esp k) /\
             forall j, 0 <= j < k -> valid_user_addr (slot esp j)).
Proof.
  induction n as [| n [IH | IH]].
  - left. intros j Hj. lia.
  - destruct (decide (valid_user_addr (slot esp (Z.of_nat n)))) as [Hv | Hv].
    + left. intros j Hj. destruct (decide (j = Z.of_nat n)) as [-> | Hne]; [done |].
      apply IH. lia.
    + right. exists (Z.of_nat n). split; [lia |]. split; [done |].
      intros j Hj. by apply IH.
  - right. destruct IH as (k & Hk & Hbad & Hv). exists k. split; [lia | done].
Qed.

Lemma slot_loads_are_loads esp i n :
  Forall (fun e => is_load_event e = true) (slot_loads_from esp i n).
Proof. unfold slot_loads_from. apply Forall_fmap, Forall_true. done. Qed.

(** [get_argument] ends in one of two ways. *)
Lemma get_argument_cases esp (arg : list Z) (n : Z) w :
  is_pointer esp -> 0 <= n <= 3 -> length arg = 3%nat ->
  (exists arg',
     get_argument K esp arg n w = Returned arg' (log_all (slot_loads esp n) w) /\
     forall i, 0 <= i < n ->
       arg_at arg' (Z.to_nat i) = load_int (user_mem w) (slot esp i)) \/
  (exists i, 0 <= i < n /\
     get_argument K esp arg n w
       = ThreadExited (exited_with (-1) (log_all (slot_loads esp i) w))).
Proof.
  intros Hesp Hn Hlen. unfold get_argument, slot_loads.
  destruct (first_invalid_slot esp (Z.to_nat n)) as [Hv | (k & Hk & Hbad & Hv)].
  - left.
    destruct (get_argument_loop_ok (Z.to_nat n) esp arg 0 w Hesp ltac:(lia))
      as (arg' & Hrun & Hlen' & Hnew & _).
    { unfold USER_BASE. lia. }
    { intros j Hj. apply Hv. lia. }
    exists arg'. rewrite Z2Nat.id in Hrun by lia. split; [exact Hrun |].
    intros i Hi. unfold arg_at. rewrite Hnew by lia. done.
  - right. exists k. split; [lia |].
    rewrite (get_argument_loop_bad (Z.to_nat n) esp arg 0 k); try done; try lia.
    + by rewrite Z.sub_0_r.
    + unfold USER_BASE. lia.
Qed.

(** A null pointer argument in slot [k] never gets past the checks that
    precede the handler [rest]. *)
Lemma null_argument_stops {A} esp (n k : Z) (rest : list Z -> M K A) w :
  is_pointer esp -> 0 <= n <= 3 -> 0 <= k < n ->
  load_int (user_mem w) (slot esp k) = 0 ->
  exists loads,
    Forall (fun e => is_load_event e = true) loads /\
    bind (get_argument K esp arg_uninit n)
         (fun arg => bind (check_address K (arg_at arg (Z.to_nat k)))
                          (fun _ => rest arg)) w
      = ThreadExited (exited_with (-1) (log_all loads w)).
Proof.
  intros Hesp Hn Hk Hnull.
  destruct (get_argument_cases esp arg_uninit n w Hesp Hn eq_refl)
    as [(arg' & Hrun & Hval) | (i & Hi & Hrun)].
  - exists (slot_loads esp n). split; [apply slot_loads_are_loads |].
    rewrite (bind_returned _ _ _ _ _ Hrun).
    apply bind_exited. rewrite (Hval k Hk).
    change (user_mem w) with (user_mem (log_all (slot_loads esp n) w)) in Hnull.
    simpl in Hnull. rewrite Hnull.
    apply check_address_invalid, null_invalid.
  - exists (slot_loads esp i). split; [apply slot_loads_are_loads |].
    by apply bind_exited.
Qed.

Lemma pointer_slot_cases (n k : Z) :
  pointer_slot n = Some k ->
  (k = 0 /\ (n = SYS_EXEC \/ n = SYS_CREATE \/ n = SYS_REMOVE \/ n = SYS_OPEN)) \/
  (k = 1 /\ (n = SYS_READ \/ n = SYS_WRITE)).
Proof.
  unfold pointer_slot. cbn [existsb].
  destruct (Z.eqb_spec n SYS_EXEC); [intros [= <-]; tauto |].
  destruct (Z.eqb_spec n SYS_CREATE); [intros [= <-]; tauto |].
  destruct (Z.eqb_spec n SYS_REMOVE); [intros [= <-]; tauto |].
  destruct (Z.eqb_spec n SYS_OPEN); [intros [= <-]; tauto |].
  destruct (Z.eqb_spec n SYS_READ); [intros [= <-]; tauto |].
  destruct (Z.eqb_spec n SYS_WRITE); [intros [= <-]; tauto |].
  discriminate.
Qed.

(** C10.  For every system call that takes a user pointer (exec, create,
    remove and open in slot 0, read and write in slot 1), made on a valid
    stack pointer with a null pointer in that slot: the handler never
    returns to the user program and writes no result; the process has
    exited with status -1 after nothing but reads of the user stack, with
    no call to any collaborator, so the [file == NULL] branches of
    [create], [remove] and [open] are not reached this way. *)
Theorem null_pointer_argument_exits f (k : Z) w :
  valid_user_addr (esp f) ->
  pointer_slot (load_int (user_mem w) (esp f)) = Some k ->
  load_int (user_mem w) (esp f + 4 + 4 * k) = 0 ->
  exists loads w',
    syscall_handler K f w = ThreadExited w' /\
    cur_exit_status w' = -1 /\
    Forall (fun e => is_load_event e = true) loads /\
    trace w' = trace w ++ loads ++ [EvPrintf (cur_name w) (-1); EvThreadExit] /\
    user_mem w' = user_mem w /\ ext_state w' = ext_state w /\
    filesys_lock w' = filesys_lock w.
Proof.
  intros Hesp Hslot Hnull.
  assert (Hstop : forall (n : Z) (rest : list Z -> M K intr_frame),
            0 <= n <= 3 -> 0 <= k < n ->
            exists loads,
              Forall (fun e => is_load_event e = true) loads /\
              bind (get_argument K (esp f) arg_uninit n)
                   (fun arg => bind (check_address K (arg_at arg (Z.to_nat k)))
                                    (fun _ => rest arg))
                   (log (EvLoad (esp f)) w)
                = ThreadExited
                    (exited_with (-1) (log_all loads (log (EvLoad (esp f)) w)))).
  { intros n rest Hn Hk. apply null_argument_stops; try done.
    by apply valid_is_pointer. }
  assert (Hend : forall loads,
            Forall (fun e => is_load_event e = true) loads ->
            exists loads' w',
              ThreadExited
                (exited_with (-1) (log_all loads (log (EvLoad (esp f)) w)))
                = @ThreadExited K intr_frame w' /\
              cur_exit_status w' = -1 /\
              Forall (fun e => is_load_event e = true) loads' /\
              trace w' = trace w ++ loads' ++ [EvPrintf (cur_name w) (-1); EvThreadExit] /\
              user_mem w' = user_mem w /\ ext_state w' = ext_state w /\
              filesys_lock w' = filesys_lock w).
  { intros loads Hloads. eexists (EvLoad (esp f) :: loads), _.
    split; [reflexivity |]. split; [reflexivity |].
    split; [by constructor |]. split; [| done].
    simpl. by rewrite <- !app_assoc. }
  unfold syscall_handler. unfold bind at 1.
  rewrite check_address_valid
    by (by rewrite to_unsigned_pointer by by apply valid_is_pointer).
  unfold bind at 1, deref_int at 1.
  destruct (pointer_slot_cases _ _ Hslot)
    as [[-> [Hn | [Hn | [Hn | Hn]]]] | [-> [Hn | Hn]]];
    rewrite Hn; cbn [Z.eqb SYS_HALT SYS_EXIT SYS_EXEC SYS_WAIT SYS_CREATE
                       SYS_REMOVE SYS_OPEN SYS_FILESIZE SYS_READ SYS_WRITE
                       SYS_SEEK SYS_TELL SYS_CLOSE Pos.eqb];
    match goal with
    | |- context [bind (get_argument K _ _ ?n) (fun arg => bind _ (fun _ => @?rest arg))] =>
        destruct (Hstop n rest ltac:(lia) ltac:(lia)) as (loads & Hloads & Hrun)
    end;
    change (Z.to_nat 0) with 0%nat in Hrun; change (Z.to_nat 1) with 1%nat in Hrun;
    rewrite Hrun; by apply Hend.
Qed.

(** ** [exec] *)

(** With a child record, [exec] waits for the load and reports it. *)
Lemma exec_with_record cmd_line w :
  let r := impl_process_execute K cmd_line (user_mem w) (ext_state w) in
  let cp := impl_get_child_process K (fst r) (snd r) in
  cp <> NULL ->
  exists w',
    exec K cmd_line w
      = Returned (if impl_is_load K cp (impl_sema_down_load K cp (snd r))
                  then fst r else -1) w' /\
    trace w' = trace w ++ [EvProcessExecute cmd_line;
                           EvGetChildProcess (fst r); EvSemaDown cp].
Proof.
  intros r cp Hcp. subst r cp. unfold exec.
  unfold bind at 1, process_execute at 1, ext_call at 1.
  destruct (impl_process_execute K cmd_line (user_mem w) (ext_state w)) as [tid s1].
  unfold bind at 1, get_child_process at 1, ext_call at 1.
  cbn [fst snd ext_state with_ext log] in *.
  unfold bind at 1, sema_down_load at 1, ext_call at 1.
  rewrite !(proj2 (Z.eqb_neq _ _) Hcp).
  unfold bind, is_load, ret. cbn [ext_state with_ext log].
  destruct (impl_is_load K _ _); cbn [Bool.eqb];
    (eexists; split; [reflexivity | simpl; by rewrite <- !app_assoc]).
Qed.

(** Without one, it never reaches its own null check. *)
Lemma exec_without_record cmd_line w :
  let r := impl_process_execute K cmd_line (user_mem w) (ext_state w) in
  impl_get_child_process K (fst r) (snd r) = NULL ->
  exists w',
    exec K cmd_line w = Faulted w' /\
    trace w' = trace w ++ [EvProcessExecute cmd_line;
                           EvGetChildProcess (fst r); EvSemaDown NULL].
Proof.
  intros r Hcp. subst r. unfold exec.
  unfold bind at 1, process_execute at 1, ext_call at 1.
  destruct (impl_process_execute K cmd_line (user_mem w) (ext_state w)) as [tid s1].
  unfold bind at 1, get_child_process at 1, ext_call at 1.
  cbn [fst snd ext_state with_ext log] in *.
  unfold bind at 1, sema_down_load at 1. rewrite Hcp. cbn [Z.eqb NULL].
  eexists; split; [reflexivity | simpl; by rewrite <- !app_assoc].
Qed.

(** ** [create], [remove], [seek], [tell], [filesize], [close] *)

(** [create] and [remove] go to the file system without touching the
    lock. *)
Lemma create_trace file initial_size w :
  file <> NULL ->
  exists b w',
    create K file initial_size w = Returned b w' /\
    trace w' = trace w ++ [EvFilesysCreate file initial_size] /\
    filesys_lock w' = filesys_lock w.
Proof.
  intros Hfile. unfold create. rewrite (proj2 (Z.eqb_neq _ _) Hfile).
  run_handler. destruct (impl_filesys_create K _ _ _ _) as [b s1].
  by eexists _, _.
Qed.

Lemma remove_trace file w :
  file <> NULL ->
  exists b w',
    remove K file w = Returned b w' /\
    trace w' = trace w ++ [EvFilesysRemove file] /\
    filesys_lock w' = filesys_lock w.
Proof.
  intros Hfile. unfold remove. rewrite (proj2 (Z.eqb_neq _ _) Hfile).
  run_handler. destruct (impl_filesys_remove K _ _ _) as [b s1].
  by eexists _, _.
Qed.

(** On a descriptor that resolves to no handle. *)
Lemma filesize_unresolved fd w :
  impl_process_get_file K fd (ext_state w) = NULL ->
  filesize K fd w = Returned (-1) (log (EvProcessGetFile fd) w).
Proof.
  intros Hfd. unfold filesize. run_handler. rewrite Hfd. simpl.
  by destruct w.
Qed.

Lemma seek_unresolved fd position w :
  impl_process_get_file K fd (ext_state w) = NULL ->
  seek K fd position w
    = Faulted (log_all [EvProcessGetFile fd; EvFileSeek NULL position] w).
Proof.
  intros Hfd. unfold seek, file_seek. run_handler. rewrite Hfd. simpl.
  unfold log_all. simpl. by rewrite <- app_assoc.
Qed.

Lemma tell_unresolved fd w :
  impl_process_get_file K fd (ext_state w) = NULL ->
  tell K fd w = Faulted (log_all [EvProcessGetFile fd; EvFileTell NULL] w).
Proof.
  intros Hfd. unfold tell, file_tell. run_handler. rewrite Hfd. simpl.
  unfold log_all. simpl. by rewrite <- app_assoc.
Qed.

Lemma close_returns fd w :
  exists w', close K fd w = Returned tt w'.
Proof. unfold close. run_handler. by eexists. Qed.

End Facts.

(** * The handler on the small kernel *)

Lemma toy_esp_valid : valid_user_addr TOY_ESP.
Proof. unfold valid_user_addr, TOY_ESP, USER_BASE, KERNEL_BASE. lia. Qed.

(** The null pointer at the toy kernel's boot state. *)
Lemma check_address_accepts_user_range_witness :
  exists w', check_address toy NULL (toy_world (fun _ => 0)) = ThreadExited w' /\
             cur_exit_status w' = -1.
Proof.
  destruct (check_address_accepts_user_range toy NULL (toy_world (fun _ => 0)))
    as (_ & _ & _ & _ & H).
  - unfold is_pointer, NULL. rewrite WORD_eq. lia.
  - destruct H as (w' & H1 & H2 & _).
    + unfold NULL, USER_BASE. lia.
    + exists w'. split; assumption.
Defined.

(** The three arguments of a [read] on the toy stack. *)
Lemma get_argument_marshals_witness :
  exists arg' w',
    get_argument toy TOY_ESP arg_uninit 3
                 (toy_world (toy_mem SYS_READ 0 TOY_NAME 2))
      = Returned arg' w' /\
    arg' !! 1%nat
      = Some (load_int (toy_mem SYS_READ 0 TOY_NAME 2) (TOY_ESP + 4 + 4 * 1)).
Proof.
  destruct (get_argument_marshals toy TOY_ESP arg_uninit 3
              (toy_world (toy_mem SYS_READ 0 TOY_NAME 2))) as [Hok _].
  - apply valid_is_pointer, toy_esp_valid.
  - lia.
  - reflexivity.
  - destruct Hok as (arg' & w' & Hrun & _ & Hval & _).
    + intros i Hi. unfold valid_user_addr, TOY_ESP, USER_BASE, KERNEL_BASE. lia.
    + exists arg', w'. split; [exact Hrun |]. apply (Hval 1). lia.
Defined.

(** C3.  [exec] when the child's record cannot be obtained: on the toy
    kernel with no page left, [process_execute] fails, [get_child_process]
    has no record, and the [exec] system call does not return -1; it goes
    down on the semaphore of the null record and faults there, before the
    null check that would have returned -1. *)
Theorem exec_missing_record_faults :
  let w := toy_world_at toy_no_pages (toy_mem SYS_EXEC TOY_NAME 0 0) in
  impl_get_child_process toy
    (fst (impl_process_execute toy TOY_NAME (user_mem w) (ext_state w)))
    (snd (impl_process_execute toy TOY_NAME (user_mem w) (ext_state w)))
    = NULL /\
  (exists w', exec toy TOY_NAME w = Faulted w' /\
     trace w' = [EvProcessExecute TOY_NAME; EvGetChildProcess (-1);
                 EvSemaDown NULL]) /\
  (exists w', syscall_handler toy toy_frame w = Faulted w' /\
     trace w' = [EvLoad TOY_ESP; EvLoad (TOY_ESP + 4);
                 EvProcessExecute TOY_NAME; EvGetChildProcess (-1);
                 EvSemaDown NULL]).
Proof.
  cbv zeta. split; [reflexivity |].
  split; eexists; (split; [reflexivity | reflexivity]).
Qed.

(** C4.  [create] and [remove] on the toy kernel, entered with the lock
    free: each calls into the file system ([filesys_create],
    [filesys_remove]) without an acquire before it, so the call is made
    while the lock is not held. *)
Theorem create_remove_call_filesys_unlocked :
  (exists fr w',
     syscall_handler toy toy_frame (toy_world (toy_mem SYS_CREATE TOY_NAME 0 0))
       = Returned fr w' /\
     trace w' = [EvLoad TOY_ESP; EvLoad (TOY_ESP + 4); EvLoad (TOY_ESP + 8);
                 EvFilesysCreate TOY_NAME 0] /\
     calls_locked is_mutating_call false (trace w') = false) /\
  (exists fr w',
     syscall_handler toy toy_frame (toy_world (toy_mem SYS_REMOVE TOY_NAME 0 0))
       = Returned fr w' /\
     trace w' = [EvLoad TOY_ESP; EvLoad (TOY_ESP + 4);
                 EvFilesysRemove TOY_NAME] /\
     calls_locked is_mutating_call false (trace w') = false).
Proof.
  split; eexists _, _; (split; [reflexivity | split; reflexivity]).
Qed.

(** C6.  Descriptor 5 of a process with nothing open, on the toy kernel:
    [filesize] returns -1 and [close] returns, but [seek] and [tell] pass
    the null handle on to [file_seek] and [file_tell] and fault there. *)
Theorem seek_tell_unresolved_descriptor_fault :
  let w := toy_world (toy_mem SYS_SEEK 5 0 0) in
  impl_process_get_file toy 5 (ext_state w) = NULL /\
  (exists w', filesize toy 5 w = Returned (-1) w') /\
  (exists w', close toy 5 w = Returned tt w') /\
  (exists w', seek toy 5 0 w = Faulted w' /\
     trace w' = [EvProcessGetFile 5; EvFileSeek NULL 0]) /\
  (exists w', tell toy 5 w = Faulted w' /\
     trace w' = [EvProcessGetFile 5; EvFileTell NULL]) /\
  (exists w', syscall_handler toy toy_frame w = Faulted w' /\
     trace w' = [EvLoad TOY_ESP; EvLoad (TOY_ESP + 4); EvLoad (TOY_ESP + 8);
                 EvProcessGetFile 5; EvFileSeek NULL 0]).
Proof.
  cbv zeta. split; [reflexivity |].
  split; [eexists; reflexivity |]. split; [eexists; reflexivity |].
  repeat split; eexists; (split; [reflexivity | reflexivity]).
Qed.

(** [open], [read] and [write] from the toy kernel's boot state. *)
Lemma open_read_write_release_lock_witness :
  (exists r w', open toy TOY_NAME (toy_world (toy_mem SYS_OPEN TOY_NAME 0 0))
                  = Returned r w' /\ filesys_lock w' = false) /\
  (exists r w', read toy 0 TOY_NAME 2 (toy_world (toy_mem SYS_OPEN TOY_NAME 0 0))
                  = Returned r w' /\ filesys_lock w' = false).
Proof.
  destruct (open_read_write_release_lock toy
              (toy_world (toy_mem SYS_OPEN TOY_NAME 0 0)) eq_refl)
    as (Hopen & Hread & _).
  split.
  - destruct (Hopen TOY_NAME) as (r & w' & Hrun & Hfree & _). by exists r, w'.
  - destruct (Hread 0 TOY_NAME 2) as (r & w' & Hrun & Hfree & _). by exists r, w'.
Defined.

(** Two keys read into the user stack. *)
Lemma read_stdin_fills_buffer_witness :
  exists r w',
    read toy 0 TOY_NAME 2 (toy_world (toy_mem SYS_READ 0 TOY_NAME 2))
      = Returned r w' /\
    r = 2 /\
    load8 (user_mem w') (ptr_add TOY_NAME 0) = 104 /\
    load8 (user_mem w') (ptr_add TOY_NAME 1) = 105.
Proof.
  destruct (read_stdin_fills_buffer toy TOY_NAME 2
              (toy_world (toy_mem SYS_READ 0 TOY_NAME 2)))
    as (r & w' & Hrun & Hsmall & _ & _ & Hbytes & _).
  - rewrite WORD_eq. lia.
  - exists r, w'. split; [exact Hrun |]. split; [apply Hsmall; unfold INT_MAX; lia |].
    split; [apply (Hbytes 0); lia | apply (Hbytes 1); lia].
Defined.

(** [read (0, buffer, 2^31)] into the bottom of the user range: the value
    returned is not the size. *)
Lemma read_stdin_return_wraps :
  ~ exists w',
      read toy 0 USER_BASE (2 ^ 31) (toy_world (fun _ => 0))
        = Returned (2 ^ 31) w'.
Proof.
  intros [w' Hrun]. rewrite read_stdin_run in Hrun.
  assert (Hret : to_int (2 ^ 31) = 2 ^ 31).
  { exact (f_equal (fun o => match o with
                             | Returned r _ => r
                             | _ => 0
                             end) Hrun). }
  vm_compute in Hret. discriminate Hret.
Qed.

Lemma toy_descriptors_nonnegative (f : Z) (s : toy_state) :
  0 <= fst (toy_process_add_file f s).
Proof. unfold toy_process_add_file. destruct (_ <? 64); simpl; lia. Qed.

(** Opening file "a" gives descriptor 2. *)
Lemma open_returns_descriptor_or_minus_one_witness :
  exists r w',
    open toy TOY_NAME (toy_world (toy_mem SYS_OPEN TOY_NAME 0 0)) = Returned r w' /\
    r = 2.
Proof.
  destruct (open_returns_descriptor_or_minus_one toy TOY_NAME
              (toy_world (toy_mem SYS_OPEN TOY_NAME 0 0))
              toy_descriptors_nonnegative)
    as (r & w' & Hrun & Hiff & Hfd).
  exists r, w'. split; [exact Hrun |].
  apply Hfd. intros Hr. apply Hiff in Hr.
  destruct Hr as [Hr | [Hr | Hr]]; vm_compute in Hr; discriminate Hr.
Defined.

(** System call number 77. *)
Lemma unknown_syscall_exits_thread_witness :
  exists w',
    syscall_handler toy toy_frame (toy_world (toy_mem 77 0 0 0)) = ThreadExited w' /\
    cur_exit_status w' = 0 /\
    trace w' = [EvLoad TOY_ESP; EvThreadExit].
Proof.
  destruct (unknown_syscall_exits_thread toy toy_frame
              (toy_world (toy_mem 77 0 0 0)) toy_esp_valid eq_refl)
    as (w' & Hrun & Hstatus & Htrace & _).
  exists w'. split; [exact Hrun |]. split; [exact Hstatus | exact Htrace].
Defined.

(** [open (NULL)] through the handler. *)
Lemma null_pointer_argument_exits_witness :
  exists w',
    syscall_handler toy toy_frame (toy_world (toy_mem SYS_OPEN 0 0 0))
      = ThreadExited w' /\
    cur_exit_status w' = -1.
Proof.
  destruct (null_pointer_argument_exits toy toy_frame 0
              (toy_world (toy_mem SYS_OPEN 0 0 0)) toy_esp_valid eq_refl eq_refl)
    as (loads & w' & Hrun & Hstatus & _).
  exists w'. split; [exact Hrun | exact Hstatus].
Defined.

(** * More of syscall.c *)

Section Coverage.

Variable K : Subsystems.

Implicit Types (w : world K) (P : event -> Prop).

(** ** What a computation adds to the trace *)

Lemma adds_ret P {A} (x : A) : adds P (@ret K A x).
Proof. intros w. exists []. simpl. by rewrite app_nil_r. Qed.

Lemma adds_bind P {A B} (m : M K A) (k : A -> M K B) :
  adds P m -> (forall x, adds P (k x)) -> adds P (bind m k).
Proof.
  intros Hm Hk w. destruct (Hm w) as (evs1 & Ht1 & HP1). unfold bind.
  destruct (m w) as [x w1 | w1 | w1 | w1]; simpl in *;
    try (exists evs1; by split).
  destruct (Hk x w1) as (evs2 & Ht2 & HP2).
  exists (evs1 ++ evs2). rewrite Ht2, Ht1, app_assoc.
  split; [done | by apply Forall_app].
Qed.

Lemma adds_if P {A} (b : bool) (m1 m2 : M K A) :
  adds P m1 -> adds P m2 -> adds P (if b then m1 else m2).
Proof. by destruct b. Qed.

Ltac one_event :=
  let w := fresh "w" in
  intros w;
  unfold process_execute, get_child_process, process_wait, process_add_file,
    process_get_file, process_close_file, filesys_create, filesys_remove,
    filesys_open, file_deny_write, file_length, file_read, file_write,
    input_getc, putbuf, ext_call, lock_acquire, lock_release, deref_int,
    assign_byte, thread_exit, shutdown_power_off;
  repeat match goal with
         | |- context [let '(_, _) := ?x in _] => destruct x
         end;
  simpl; eexists [_]; split; [reflexivity | by repeat constructor].

Lemma adds_process_execute P cmd : P (EvProcessExecute cmd) ->
  adds P (process_execute K cmd).
Proof. intros HP. one_event. Qed.

Lemma adds_get_child_process P tid : P (EvGetChildProcess tid) ->
  adds P (get_child_process K tid).
Proof. intros HP. one_event. Qed.

Lemma adds_process_wait P tid : P (EvProcessWait tid) ->
  adds P (process_wait K tid).
Proof. intros HP. one_event. Qed.

Lemma adds_process_add_file P f : P (EvProcessAddFile f) ->
  adds P (process_add_file K f).
Proof. intros HP. one_event. Qed.

Lemma adds_process_get_file P fd : P (EvProcessGetFile fd) ->
  adds P (process_get_file K fd).
Proof. intros HP. one_event. Qed.

Lemma adds_process_close_file P fd : P (EvProcessCloseFile fd) ->
  adds P (process_close_file K fd).
Proof. intros HP. one_event. Qed.

Lemma adds_filesys_create P name size : P (EvFilesysCreate name size) ->
  adds P (filesys_create K name size).
Proof. intros HP. one_event. Qed.

Lemma adds_filesys_remove P name : P (EvFilesysRemove name) ->
  adds P (filesys_remove K name).
Proof. intros HP. one_event. Qed.

Lemma adds_filesys_open P name : P (EvFilesysOpen name) ->
  adds P (filesys_open K name).
Proof. intros HP. one_event. Qed.

Lemma adds_file_deny_write P f : P (EvFileDenyWrite f) ->
  adds P (file_deny_write K f).
Proof. intros HP. one_event. Qed.

Lemma adds_file_length P f : P (EvFileLength f) -> adds P (file_length K f).
Proof. intros HP. one_event. Qed.

Lemma adds_file_read P f buffer size : P (EvFileRead f buffer size) ->
  adds P (file_read K f buffer size).
Proof.
  intros HP w. unfold file_read.
  destruct (impl_file_read K f buffer size (user_mem w) (ext_state w)) as [[n m] s].
  simpl. eexists [_]. split; [reflexivity | by repeat constructor].
Qed.

Lemma adds_file_write P f buffer size : P (EvFileWrite f buffer size) ->
  adds P (file_write K f buffer size).
Proof. intros HP. one_event. Qed.

Lemma adds_putbuf P buffer size : P (EvPutbuf buffer size) ->
  adds P (putbuf K buffer size).
Proof. intros HP. one_event. Qed.

Lemma adds_lock_acquire P : P EvLockAcquire -> adds P (lock_acquire K).
Proof. intros HP. one_event. Qed.

Lemma adds_lock_release P : P EvLockRelease -> adds P (lock_release K).
Proof. intros HP. one_event. Qed.

Lemma adds_input_getc P : (forall c, P (EvInputGetc c)) -> adds P (input_getc K).
Proof.
  intros HP w. unfold input_getc. destruct (impl_input_getc K (ext_state w)) as [c s].
  simpl. eexists [_]. split; [reflexivity | by repeat constructor].
Qed.

Lemma adds_assign_byte P a v : P (EvStore a v) -> adds P (assign_byte K a v).
Proof. intros HP. one_event. Qed.

Lemma adds_deref_int P a : P (EvLoad a) -> adds P (deref_int K a).
Proof. intros HP. one_event. Qed.

Lemma adds_thread_exit P {A} : P EvThreadExit -> adds P (@thread_exit K A).
Proof. intros HP. one_event. Qed.

Lemma adds_halt P {A} : P EvPowerOff -> adds P (@halt K A).
Proof. intros HP. unfold halt. one_event. Qed.

Lemma adds_strcmp_cur_name P file : adds P (strcmp_cur_name K file).
Proof. intros w. exists []. simpl. by rewrite app_nil_r. Qed.

Lemma adds_is_load P cp : adds P (is_load K cp).
Proof. intros w. exists []. simpl. by rewrite app_nil_r. Qed.

Lemma adds_sema_down_load P cp : P (EvSemaDown cp) -> adds P (sema_down_load K cp).
Proof.
  intros HP w. unfold sema_down_load, ext_call. destruct (Z.eqb cp NULL); simpl;
    (eexists [_]; split; [reflexivity | by repeat constructor]).
Qed.

Lemma adds_file_seek P f position : P (EvFileSeek f position) ->
  adds P (file_seek K f position).
Proof.
  intros HP w. unfold file_seek, ext_call. destruct (Z.eqb f NULL); simpl;
    (eexists [_]; split; [reflexivity | by repeat constructor]).
Qed.

Lemma adds_file_tell P f : P (EvFileTell f) -> adds P (file_tell K f).
Proof.
  intros HP w. unfold file_tell, ext_call. destruct (Z.eqb f NULL); simpl;
    (eexists [_]; split; [reflexivity | by repeat constructor]).
Qed.

Lemma adds_exit P {A} (status : Z) :
  (forall name, P (EvPrintf name status)) -> P EvThreadExit ->
  adds P (@exit K A status).
Proof.
  intros HP1 HP2 w. rewrite exit_outcome. simpl.
  exists [EvPrintf (cur_name w) status; EvThreadExit].
  split; [by rewrite <- app_assoc | by repeat constructor].
Qed.

Lemma adds_check_address P a :
  (forall name, P (EvPrintf name (-1))) -> P EvThreadExit ->
  adds P (check_address K a).
Proof.
  intros HP1 HP2. unfold check_address.
  apply adds_if; [by apply adds_exit | apply adds_ret].
Qed.

Ltac adds_steps HP :=
  repeat first
    [ apply adds_ret
    | apply adds_bind; [| intros ?]
    | apply adds_strcmp_cur_name
    | apply adds_is_load
    | apply adds_process_execute; apply HP; exact I
    | apply adds_get_child_process; apply HP; exact I
    | apply adds_sema_down_load; apply HP; exact I
    | apply adds_process_wait; apply HP; exact I
    | apply adds_process_add_file; apply HP; exact I
    | apply adds_process_get_file; apply HP; exact I
    | apply adds_process_close_file; apply HP; exact I
    | apply adds_filesys_create; apply HP; exact I
    | apply adds_filesys_remove; apply HP; exact I
    | apply adds_filesys_open; apply HP; exact I
    | apply adds_file_deny_write; apply HP; exact I
    | apply adds_file_length; apply HP; exact I
    | apply adds_file_read; apply HP; exact I
    | apply adds_file_write; apply HP; exact I
    | apply adds_file_seek; apply HP; exact I
    | apply adds_file_tell; apply HP; exact I
    | apply adds_putbuf; apply HP; exact I
    | apply adds_lock_acquire; apply HP; exact I
    | apply adds_lock_release; apply HP; exact I
    | apply adds_input_getc; intros ?; apply HP; exact I
    | apply adds_assign_byte; apply HP; exact I
    | apply adds_thread_exit; apply HP; exact I
    | apply adds_halt; apply HP; exact I
    | apply adds_exit; [intros ?; apply HP; exact I | apply HP; exact I]
    | apply adds_check_address; [intros ?; apply HP; exact I | apply HP; exact I]
    | apply adds_if ].

(** The handlers that take no lock add neither a read of user memory nor
    a lock event. *)
Section Unlocked.

Variable P : event -> Prop.
Hypothesis HP : forall e, not_load e -> not_lock_event e -> P e.

Lemma adds_create file size : adds P (create K file size).
Proof. unfold create. adds_steps HP. Qed.

Lemma adds_remove file : adds P (remove K file).
Proof. unfold remove. adds_steps HP. Qed.

Lemma adds_exec cmd_line : adds P (exec K cmd_line).
Proof. unfold exec. adds_steps HP. Qed.

Lemma adds_wait tid : adds P (wait K tid).
Proof. unfold wait. adds_steps HP. Qed.

Lemma adds_filesize fd : adds P (filesize K fd).
Proof. unfold filesize. adds_steps HP. Qed.

Lemma adds_seek fd position : adds P (seek K fd position).
Proof. unfold seek. adds_steps HP. Qed.

Lemma adds_tell fd : adds P (tell K fd).
Proof. unfold tell. adds_steps HP. Qed.

Lemma adds_close fd : adds P (close K fd).
Proof. unfold close. adds_steps HP. Qed.

End Unlocked.

(** [open], [read] and [write] add no read of user memory. *)
Section Locked.

Variable P : event -> Prop.
Hypothesis HP : forall e, not_load e -> P e.

Lemma adds_open file : adds P (open K file).
Proof. unfold open. adds_steps HP. Qed.

Lemma adds_read_stdin_loop (n : nat) : forall buffer i,
  adds P (read_stdin_loop K n buffer i).
Proof.
  induction n as [| n IH]; intros buffer i; cbn [read_stdin_loop].
  - apply adds_ret.
  - adds_steps HP. apply IH.
Qed.

Lemma adds_read fd buffer size : adds P (read K fd buffer size).
Proof. unfold read. adds_steps HP. apply adds_read_stdin_loop. Qed.

Lemma adds_write fd buffer size : adds P (write K fd buffer size).
Proof. unfold write. adds_steps HP. Qed.

End Locked.

(** ** Reads of user memory *)

Lemma not_load_in_user_range e : not_load e -> load_in_user_range e.
Proof. by destruct e. Qed.

Lemma not_load_unlocked_in_user_range e :
  not_load e -> not_lock_event e -> load_in_user_range e.
Proof. by destruct e. Qed.

(** A read right after the check of its address. *)
Lemma adds_checked_load {A} a (k : Z -> M K A) :
  is_pointer a ->
  (forall v, adds load_in_user_range (k v)) ->
  adds load_in_user_range
    (bind (check_address K a) (fun _ => bind (deref_int K a) k)).
Proof.
  intros Ha Hk w. destruct (decide (valid_user_addr a)) as [Hv | Hv].
  - rewrite (bind_returned K _ _ w tt w)
      by (apply check_address_valid; by rewrite to_unsigned_pointer).
    by apply adds_bind; [apply adds_deref_int |].
  - rewrite (bind_exited K _ _ w (exited_with (-1) w))
      by (apply check_address_invalid; by rewrite to_unsigned_pointer).
    simpl. eexists [_; _]. split; [by rewrite <- app_assoc |].
    by repeat constructor.
Qed.

Lemma adds_get_argument_loop (n : nat) : forall esp arg i,
  adds load_in_user_range (get_argument_loop K n esp arg i).
Proof.
  induction n as [| n IH]; intros esp arg i; cbn [get_argument_loop].
  - apply adds_ret.
  - apply adds_checked_load; [apply ptr_add_is_pointer |]. intros v. apply IH.
Qed.

Lemma adds_get_argument esp arg count :
  adds load_in_user_range (get_argument K esp arg count).
Proof. apply adds_get_argument_loop. Qed.

Ltac handler_steps :=
  repeat first
    [ apply adds_get_argument
    | apply adds_exec; apply not_load_unlocked_in_user_range
    | apply adds_wait; apply not_load_unlocked_in_user_range
    | apply adds_create; apply not_load_unlocked_in_user_range
    | apply adds_remove; apply not_load_unlocked_in_user_range
    | apply adds_filesize; apply not_load_unlocked_in_user_range
    | apply adds_seek; apply not_load_unlocked_in_user_range
    | apply adds_tell; apply not_load_unlocked_in_user_range
    | apply adds_close; apply not_load_unlocked_in_user_range
    | apply adds_open; apply not_load_in_user_range
    | apply adds_read; apply not_load_in_user_range
    | apply adds_write; apply not_load_in_user_range
    | apply adds_ret
    | apply adds_halt; exact I
    | apply adds_thread_exit; exact I
    | apply adds_exit; [intros ?; exact I | exact I]
    | apply adds_check_address; [intros ?; exact I | exact I]
    | apply adds_bind; [| intros ?]
    | apply adds_if ].

(** X1.  Whatever the system call and however it ends, every word the
    handler itself reads from user memory (the number, the argument slots)
    starts at an address of the user range: no read is made before its
    address passed [check_address]. *)
Theorem syscall_handler_reads_user_range f w :
  is_pointer (esp f) ->
  exists evs,
    trace (final_world (syscall_handler K f w)) = trace w ++ evs /\
    Forall (fun e => match e with
                     | EvLoad a => USER_BASE <= a < KERNEL_BASE
                     | _ => True
                     end) evs.
Proof.
  intros Hesp.
  assert (H : adds load_in_user_range (syscall_handler K f)).
  { unfold syscall_handler. apply adds_checked_load; [exact Hesp |].
    intros number. handler_steps. }
  exact (H w).
Qed.

(** ** The lock *)

Lemma keeps_ret {A} (x : A) : keeps_lock (@ret K A x).
Proof. by intros w. Qed.

Lemma keeps_bind {A B} (m : M K A) (k : A -> M K B) :
  keeps_lock m -> (forall x, keeps_lock (k x)) -> keeps_lock (bind m k).
Proof.
  intros Hm Hk w. specialize (Hm w). unfold bind.
  destruct (m w) as [x w1 | w1 | w1 | w1]; simpl in *; try done.
  by rewrite Hk.
Qed.

Lemma keeps_if {A} (b : bool) (m1 m2 : M K A) :
  keeps_lock m1 -> keeps_lock m2 -> keeps_lock (if b then m1 else m2).
Proof. by destruct b. Qed.

Ltac keeps_prim :=
  let w := fresh "w" in
  intros w;
  unfold process_execute, get_child_process, process_wait, process_add_file,
    process_get_file, process_close_file, filesys_create, filesys_remove,
    filesys_open, file_deny_write, file_length, file_read, file_write,
    file_seek, file_tell, sema_down_load, is_load, strcmp_cur_name,
    input_getc, putbuf, ext_call, deref_int, assign_byte, thread_exit,
    halt, shutdown_power_off, exit, bind, ret;
  repeat match goal with
         | |- context [let '(_, _) := ?x in _] => destruct x
         | |- context [if ?b then _ else _] => destruct b
         end;
  reflexivity.

Lemma keeps_check_address a : keeps_lock (check_address K a).
Proof. unfold check_address. apply keeps_if; keeps_prim. Qed.

Ltac keeps_steps :=
  repeat first
    [ apply keeps_ret
    | apply keeps_check_address
    | apply keeps_bind; [| intros ?]
    | solve [keeps_prim]
    | apply keeps_if ].



Lemma keeps_create file size : keeps_lock (create K file size).
Proof. unfold create. keeps_steps. Qed.

Lemma keeps_remove file : keeps_lock (remove K file).
Proof. unfold remove. keeps_steps. Qed.

Lemma keeps_exec cmd_line : keeps_lock (exec K cmd_line).
Proof. unfold exec. keeps_steps. Qed.

Lemma keeps_wait tid : keeps_lock (wait K tid).
Proof. unfold wait. keeps_steps. Qed.

Lemma keeps_filesize fd : keeps_lock (filesize K fd).
Proof. unfold filesize. keeps_steps. Qed.

Lemma keeps_seek fd position : keeps_lock (seek K fd position).
Proof. unfold seek. keeps_steps. Qed.

Lemma keeps_tell fd : keeps_lock (tell K fd).
Proof. unfold tell. keeps_steps. Qed.

Lemma keeps_close fd : keeps_lock (close K fd).
Proof. unfold close. keeps_steps. Qed.

(** X2.  [create], [remove], [exec], [wait], [filesize], [seek], [tell] and
    [close] never touch the lock: however each ends (returning, or faulting
    on a null handle or record), the lock is as it was on entry and the
    events it added hold no acquire and no release. *)
Theorem unlocked_handlers_leave_lock w :
  let untouched {A} (m : M K A) :=
    filesys_lock (final_world (m w)) = filesys_lock w /\
    exists evs, trace (final_world (m w)) = trace w ++ evs /\
                Forall (fun e => e <> EvLockAcquire /\ e <> EvLockRelease) evs in
  (forall file size, untouched (create K file size)) /\
  (forall file, untouched (remove K file)) /\
  (forall cmd_line, untouched (exec K cmd_line)) /\
  (forall tid, untouched (wait K tid)) /\
  (forall fd, untouched (filesize K fd)) /\
  (forall fd position, untouched (seek K fd position)) /\
  (forall fd, untouched (tell K fd)) /\
  (forall fd, untouched (close K fd)).
Proof.
  assert (HP : forall e, not_load e -> not_lock_event e ->
                         e <> EvLockAcquire /\ e <> EvLockRelease).
  { intros e _ He. by destruct e. }
  cbv zeta.
  repeat split;
    first [ apply keeps_create | apply keeps_remove | apply keeps_exec
          | apply keeps_wait | apply keeps_filesize | apply keeps_seek
          | apply keeps_tell | apply keeps_close
          | by apply adds_create | by apply adds_remove | by apply adds_exec
          | by apply adds_wait | by apply adds_filesize | by apply adds_seek
          | by apply adds_tell | by apply adds_close ].
Qed.









(** ** What the handler returns to *)

Lemma returns_with_ret {A} (Q : A -> Prop) (x : A) :
  Q x -> returns_with Q (@ret K A x).
Proof. intros HQ w y w' [= <- _]. exact HQ. Qed.

Lemma returns_with_bind {A B} (Q : B -> Prop) (m : M K A) (k : A -> M K B) :
  (forall x, returns_with Q (k x)) -> returns_with Q (bind m k).
Proof.
  intros Hk w y w'. unfold bind.
  destruct (m w) as [x w1 | w1 | w1 | w1]; try discriminate. apply Hk.
Qed.

Lemma returns_with_exit {A} (Q : A -> Prop) status :
  returns_with Q (@exit K A status).
Proof. intros w y w'. rewrite exit_outcome. discriminate. Qed.

Lemma returns_with_halt {A} (Q : A -> Prop) : returns_with Q (@halt K A).
Proof. intros w y w'. discriminate. Qed.

Lemma returns_with_thread_exit {A} (Q : A -> Prop) :
  returns_with Q (@thread_exit K A).
Proof. intros w y w'. discriminate. Qed.

Ltac returns_steps :=
  repeat first
    [ apply returns_with_halt
    | apply returns_with_exit
    | apply returns_with_thread_exit
    | apply returns_with_bind; intros ?
    | apply returns_with_ret ].

Lemma set_eax_frame f (r : Z) :
  esp (set_eax f r) = esp f /\ 0 <= eax (set_eax f r) < WORD.
Proof.
  split; [reflexivity |]. simpl. unfold to_unsigned.
  apply Z.mod_pos_bound. rewrite WORD_eq. lia.
Qed.

(** X4.  The handler returns to the user program only for the eleven
    calls other than halt and exit, and only when the stack pointer passed
    the check; the saved stack pointer is then as it was; [seek] and [close]
    leave the whole frame as it was, and every other call has written a
    32-bit value into [eax]. *)
Theorem syscall_handler_returned_frame f w f' w' :
  syscall_handler K f w = Returned f' w' ->
  let number := load_int (user_mem w) (esp f) in
  valid_user_addr (to_unsigned (esp f)) /\
  esp f' = esp f /\
  recognized number = true /\ number <> SYS_HALT /\ number <> SYS_EXIT /\
  (number = SYS_SEEK \/ number = SYS_CLOSE -> f' = f) /\
  (number <> SYS_SEEK -> number <> SYS_CLOSE -> 0 <= eax f' < WORD).
Proof.
  intros Hrun number. unfold syscall_handler in Hrun.
  unfold bind at 1 in Hrun.
  destruct (decide (valid_user_addr (to_unsigned (esp f)))) as [Hv | Hv];
    [| rewrite check_address_invalid in Hrun by done; discriminate].
  rewrite check_address_valid in Hrun by done.
  unfold bind at 1, deref_int at 1 in Hrun. fold number in Hrun.
  split; [exact Hv |].
  pose (Qset := fun fr : intr_frame => esp fr = esp f /\ 0 <= eax fr < WORD).
  pose (Qsame := fun fr : intr_frame => fr = f).
  assert (Hset : forall (m : M K intr_frame) w1,
            returns_with Qset m -> m w1 = Returned f' w' ->
            esp f' = esp f /\ 0 <= eax f' < WORD).
  { intros m w1 Hm Hw1. exact (Hm _ _ _ Hw1). }
  assert (Hsame : forall (m : M K intr_frame) w1,
            returns_with Qsame m -> m w1 = Returned f' w' -> f' = f).
  { intros m w1 Hm Hw1. exact (Hm _ _ _ Hw1). }
  assert (Hnone : forall (m : M K intr_frame) w1,
            returns_with (fun _ => False) m -> m w1 = Returned f' w' -> False).
  { intros m w1 Hm Hw1. exact (Hm _ _ _ Hw1). }
  destruct (Z.eqb_spec number SYS_HALT) as [Hn | _].
  { exfalso. eapply Hnone; [| exact Hrun]. returns_steps. }
  destruct (Z.eqb_spec number SYS_EXIT) as [Hn | _].
  { exfalso. eapply Hnone; [| exact Hrun]. returns_steps. }
  repeat match type of Hrun with
         | (if Z.eqb number ?c then _ else _) _ = _ =>
             destruct (Z.eqb_spec number c) as [Hn | _];
             [ first
                 [ apply Hset in Hrun;
                   [ destruct Hrun as [Hesp Heax]; rewrite Hn;
                     split; [exact Hesp |];
                     split; [reflexivity |];
                     split; [discriminate |]; split; [discriminate |];
                     split; [intros [? | ?]; discriminate | intros _ _; exact Heax]
                   | returns_steps; apply set_eax_frame ]
                 | apply Hsame in Hrun;
                   [ rewrite Hn, Hrun;
                     split; [reflexivity |];
                     split; [reflexivity |];
                     split; [discriminate |]; split; [discriminate |];
                     split; [reflexivity | intros ? ?; congruence]
                   | returns_steps; reflexivity ] ]
             | ]
         end.
  exfalso. eapply Hnone; [| exact Hrun]. returns_steps.
Qed.

(** X5.  A stack pointer outside the user range is never read through:
    the handler ends in [exit (-1)] with the status recorded and the notice
    printed, having read nothing and called nothing. *)
Theorem syscall_handler_rejects_stack_pointer f w :
  is_pointer (esp f) -> ~ valid_user_addr (esp f) ->
  exists w',
    syscall_handler K f w = ThreadExited w' /\
    cur_exit_status w' = -1 /\
    trace w' = trace w ++ [EvPrintf (cur_name w) (-1); EvThreadExit] /\
    user_mem w' = user_mem w /\ ext_state w' = ext_state w /\
    filesys_lock w' = filesys_lock w.
Proof.
  intros Hptr Hbad. exists (exited_with (-1) w). split.
  - unfold syscall_handler. apply bind_exited, check_address_invalid.
    by rewrite to_unsigned_pointer.
  - split; [reflexivity |]. split; [apply exited_with_trace | done].
Qed.

(** ** Calls on a valid stack *)

Lemma to_int_range (x : Z) : INT_MIN <= to_int x <= INT_MAX.
Proof.
  unfold to_int, INT_MIN, INT_MAX.
  pose proof (Z.mod_pos_bound (x + 2 ^ 31) WORD ltac:(rewrite WORD_eq; lia)) as H.
  rewrite WORD_eq in *. lia.
Qed.

Lemma to_unsigned_to_int (x : Z) : to_unsigned (to_int x) = to_unsigned x.
Proof.
  pose proof (ptr_add_to_int 0 x) as H. unfold ptr_add in H.
  by rewrite !Z.add_0_l in H.
Qed.

(** The handler up to its [switch]: the stack pointer passes the check and
    the number is read. *)
Lemma syscall_handler_switch f w :
  valid_user_addr (esp f) ->
  forall (rest : Z -> M K intr_frame),
    bind (check_address K (esp f)) (fun _ => bind (deref_int K (esp f)) rest) w
      = rest (load_int (user_mem w) (esp f)) (log (EvLoad (esp f)) w).
Proof.
  intros Hesp rest.
  rewrite (bind_returned K _ _ w tt w); [reflexivity |].
  apply check_address_valid.
  by rewrite to_unsigned_pointer by by apply valid_is_pointer.
Qed.

(** [get_argument] on slots that are all in the user range. *)
Lemma get_argument_valid esp (n : Z) w :
  is_pointer esp -> 0 <= n <= 3 ->
  (forall i, 0 <= i < n -> valid_user_addr (slot esp i)) ->
  exists arg',
    get_argument K esp arg_uninit n w
      = Returned arg' (log_all (slot_loads esp n) w) /\
    forall i, 0 <= i < n ->
      arg_at arg' (Z.to_nat i) = load_int (user_mem w) (slot esp i).
Proof.
  intros Hesp Hn Hv.
  destruct (get_argument_loop_ok K (Z.to_nat n) esp arg_uninit 0 w Hesp ltac:(lia))
    as (arg' & Hrun & _ & Hnew & _).
  { unfold USER_BASE. lia. }
  { intros j Hj. apply Hv. lia. }
  exists arg'. unfold get_argument, slot_loads.
  rewrite Z2Nat.id in Hrun by lia. split; [exact Hrun |].
  intros i Hi. unfold arg_at. rewrite Hnew; [done | lia | simpl; lia].
Qed.

(** A stack with its top slot in the user range has them all there. *)
Lemma slots_valid esp (n : Z) :
  valid_user_addr esp -> valid_user_addr (slot esp (n - 1)) ->
  forall i, 0 <= i < n -> valid_user_addr (slot esp i).
Proof. unfold valid_user_addr, slot. intros Hesp Htop i Hi. lia. Qed.

Ltac enter_switch Hesp Hnumber :=
  unfold syscall_handler;
  rewrite (syscall_handler_switch _ _ Hesp);
  rewrite Hnumber;
  cbn [Z.eqb SYS_HALT SYS_EXIT SYS_EXEC SYS_WAIT SYS_CREATE SYS_REMOVE
       SYS_OPEN SYS_FILESIZE SYS_READ SYS_WRITE SYS_SEEK SYS_TELL SYS_CLOSE
       Pos.eqb].

(** X6.  The two calls that end the caller, on a valid stack pointer.
    [halt] powers the machine off having read only the number: no argument,
    no status recorded.  [exit] with its status slot in the user range
    records that word, an [int], as the exit status, prints the notice with
    the thread's name and that status, and leaves the thread; neither
    returns. *)
Theorem syscall_halt_exit_end_process f w :
  valid_user_addr (esp f) ->
  (load_int (user_mem w) (esp f) = SYS_HALT ->
     exists w',
       syscall_handler K f w = PoweredOff w' /\
       trace w' = trace w ++ [EvLoad (esp f); EvPowerOff] /\
       cur_exit_status w' = cur_exit_status w) /\
  (load_int (user_mem w) (esp f) = SYS_EXIT ->
   valid_user_addr (esp f + 4) ->
     exists w',
       syscall_handler K f w = ThreadExited w' /\
       cur_exit_status w' = load_int (user_mem w) (esp f + 4) /\
       INT_MIN <= cur_exit_status w' <= INT_MAX /\
       trace w' = trace w ++ [EvLoad (esp f); EvLoad (esp f + 4);
                              EvPrintf (cur_name w)
                                (load_int (user_mem w) (esp f + 4));
                              EvThreadExit]).
Proof.
  intros Hesp. split.
  - intros Hnumber. enter_switch Hesp Hnumber.
    eexists. split; [reflexivity |]. split; [| reflexivity].
    simpl. by rewrite <- app_assoc.
  - intros Hnumber Hslot. enter_switch Hesp Hnumber.
    destruct (get_argument_valid (esp f) 1 (log (EvLoad (esp f)) w))
      as (arg' & Hrun & Hval); [by apply valid_is_pointer | lia | |].
    { intros i Hi. replace i with 0 by lia. unfold slot. by rewrite Z.add_0_r. }
    rewrite (bind_returned K _ _ _ _ _ Hrun), exit_outcome.
    pose proof (Hval 0 ltac:(lia)) as Hval0.
    change (Z.to_nat 0) with 0%nat in Hval0. rewrite Hval0.
    simpl user_mem. unfold slot.
    replace (esp f + 4 + 4 * 0) with (esp f + 4) by lia.
    eexists. split; [reflexivity |]. split; [reflexivity |].
    split; [apply to_int_range |].
    rewrite exited_with_trace. simpl. rewrite <- !app_assoc.
    change (slot_loads (esp f) 1) with [EvLoad (slot (esp f) 0)].
    unfold slot. replace (esp f + 4 + 4 * 0) with (esp f + 4) by lia.
    reflexivity.
Qed.

(** A pointer argument outside the user range never gets past the checks
    that precede the handler [rest]. *)
Lemma invalid_argument_stops {A} esp (n k : Z) (rest : list Z -> M K A) w :
  is_pointer esp -> 0 <= n <= 3 -> 0 <= k < n ->
  ~ valid_user_addr (to_unsigned (load_int (user_mem w) (slot esp k))) ->
  exists loads,
    Forall (fun e => is_load_event e = true) loads /\
    bind (get_argument K esp arg_uninit n)
         (fun arg => bind (check_address K (arg_at arg (Z.to_nat k)))
                          (fun _ => rest arg)) w
      = ThreadExited (exited_with (-1) (log_all loads w)).
Proof.
  intros Hesp Hn Hk Hbad.
  destruct (get_argument_cases K esp arg_uninit n w Hesp Hn eq_refl)
    as [(arg' & Hrun & Hval) | (i & Hi & Hrun)].
  - exists (slot_loads esp n). split; [apply slot_loads_are_loads |].
    rewrite (bind_returned K _ _ _ _ _ Hrun).
    apply bind_exited. rewrite (Hval k Hk).
    by apply check_address_invalid.
  - exists (slot_loads esp i). split; [apply slot_loads_are_loads |].
    by apply bind_exited.
Qed.

(** X7.  For every system call that takes a user pointer (exec, create,
    remove and open in slot 0, read and write in slot 1), made on a valid
    stack pointer with a word in that slot that is no address of the user
    range (null, below the user base, or a kernel address): the process
    exits with status -1 after reads of the user stack only; no collaborator
    is called, no lock is taken, nothing is written to [eax]. *)
Theorem invalid_pointer_argument_exits f (k : Z) w :
  valid_user_addr (esp f) ->
  pointer_slot (load_int (user_mem w) (esp f)) = Some k ->
  ~ valid_user_addr (to_unsigned (load_int (user_mem w) (esp f + 4 + 4 * k))) ->
  exists loads w',
    syscall_handler K f w = ThreadExited w' /\
    cur_exit_status w' = -1 /\
    Forall (fun e => is_load_event e = true) loads /\
    trace w' = trace w ++ loads ++ [EvPrintf (cur_name w) (-1); EvThreadExit] /\
    user_mem w' = user_mem w /\ ext_state w' = ext_state w /\
    filesys_lock w' = filesys_lock w.
Proof.
  intros Hesp Hslot Hbad.
  assert (Hstop : forall (n : Z) (rest : list Z -> M K intr_frame),
            0 <= n <= 3 -> 0 <= k < n ->
            exists loads,
              Forall (fun e => is_load_event e = true) loads /\
              bind (get_argument K (esp f) arg_uninit n)
                   (fun arg => bind (check_address K (arg_at arg (Z.to_nat k)))
                                    (fun _ => rest arg))
                   (log (EvLoad (esp f)) w)
                = ThreadExited
                    (exited_with (-1) (log_all loads (log (EvLoad (esp f)) w)))).
  { intros n rest Hn Hk. apply invalid_argument_stops; try done.
    by apply valid_is_pointer. }
  unfold syscall_handler. rewrite (syscall_handler_switch _ _ Hesp).
  destruct (pointer_slot_cases _ _ Hslot)
    as [[-> [Hn | [Hn | [Hn | Hn]]]] | [-> [Hn | Hn]]];
    rewrite Hn; cbn [Z.eqb SYS_HALT SYS_EXIT SYS_EXEC SYS_WAIT SYS_CREATE
                       SYS_REMOVE SYS_OPEN SYS_FILESIZE SYS_READ SYS_WRITE
                       SYS_SEEK SYS_TELL SYS_CLOSE Pos.eqb];
    match goal with
    | |- context [bind (get_argument K _ _ ?n) (fun arg => bind _ (fun _ => @?rest arg))] =>
        destruct (Hstop n rest ltac:(lia) ltac:(lia)) as (loads & Hloads & Hrun)
    end;
    change (Z.to_nat 0) with 0%nat in Hrun; change (Z.to_nat 1) with 1%nat in Hrun;
    rewrite Hrun;
    (eexists (EvLoad (esp f) :: loads), _;
     split; [reflexivity |]; split; [reflexivity |];
     split; [by constructor |]; split; [| done];
     simpl; by rewrite <- !app_assoc).
Qed.

(** ** [read] on standard input, through the handler *)

Lemma to_unsigned_idem (x : Z) : to_unsigned (to_unsigned x) = to_unsigned x.
Proof. unfold to_unsigned. apply Z.mod_mod. rewrite WORD_eq. lia. Qed.

Lemma to_unsigned_range (x : Z) : 0 <= to_unsigned x < WORD.
Proof. unfold to_unsigned. apply Z.mod_pos_bound. rewrite WORD_eq. lia. Qed.

Lemma syscall_read_stdin_run f w :
  valid_user_addr (esp f) -> valid_user_addr (esp f + 12) ->
  load_int (user_mem w) (esp f) = SYS_READ ->
  load_int (user_mem w) (esp f + 4) = 0 ->
  valid_user_addr (to_unsigned (load_int (user_mem w) (esp f + 8))) ->
  let buffer := to_unsigned (load_int (user_mem w) (esp f + 8)) in
  let size := to_unsigned (load_int (user_mem w) (esp f + 12)) in
  let keys := stdin_bytes K (Z.to_nat size) (ext_state w) in
  syscall_handler K f w
    = Returned (mkFrame (esp f) size)
        (mkWorld (store_bytes (user_mem w) buffer 0 (fst keys)) (snd keys)
           false (cur_name w) (cur_exit_status w)
           (trace w ++ [EvLoad (esp f); EvLoad (esp f + 4); EvLoad (esp f + 8);
                        EvLoad (esp f + 12); EvLockAcquire; EvProcessGetFile 0]
              ++ stdin_events buffer 0 (fst keys) ++ [EvLockRelease])).
Proof.
  intros Hesp Htop Hnumber Hfd Hbuf buffer size keys.
  enter_switch Hesp Hnumber.
  destruct (get_argument_valid (esp f) 3 (log (EvLoad (esp f)) w))
    as (arg' & Hrun & Hval); [by apply valid_is_pointer | lia | |].
  { apply slots_valid; [done |]. unfold slot.
    by replace (esp f + 4 + 4 * (3 - 1)) with (esp f + 12) by lia. }
  pose proof (Hval 0 ltac:(lia)) as H0. pose proof (Hval 1 ltac:(lia)) as H1.
  pose proof (Hval 2 ltac:(lia)) as H2. clear Hval.
  change (Z.to_nat 0) with 0%nat in H0. change (Z.to_nat 1) with 1%nat in H1.
  change (Z.to_nat 2) with 2%nat in H2. unfold slot in H0, H1, H2.
  simpl user_mem in H0, H1, H2.
  replace (esp f + 4 + 4 * 0) with (esp f + 4) in H0 by lia.
  replace (esp f + 4 + 4 * 1) with (esp f + 8) in H1 by lia.
  replace (esp f + 4 + 4 * 2) with (esp f + 12) in H2 by lia.
  rewrite (bind_returned K _ _ _ _ _ Hrun). rewrite H0, H1, H2, Hfd.
  fold buffer size.
  rewrite (bind_returned K _ _ _ tt _)
    by (apply check_address_valid; exact Hbuf).
  unfold bind at 1. rewrite read_stdin_run. unfold ret, set_eax.
  rewrite to_unsigned_to_int. unfold size at 1. rewrite to_unsigned_idem.
  fold size. fold keys. f_equal. simpl. f_equal.
  change (slot_loads (esp f) 3)
    with [EvLoad (slot (esp f) 0); EvLoad (slot (esp f) 1); EvLoad (slot (esp f) 2)].
  unfold slot.
  replace (esp f + 4 + 4 * 0) with (esp f + 4) by lia.
  replace (esp f + 4 + 4 * 1) with (esp f + 8) by lia.
  replace (esp f + 4 + 4 * 2) with (esp f + 12) by lia.
  by rewrite <- !app_assoc.
Qed.

(** X8.  A [read] system call on descriptor 0, on a stack whose four
    words are in the user range and with a buffer address in the user
    range: the handler returns with [eax] holding exactly the requested
    size, for every size an [unsigned] can hold, and with byte [k] of the
    keyboard input stored at [buffer + k] for each [k] below the size; the
    lock is free again. *)
Theorem syscall_read_stdin_result f w :
  valid_user_addr (esp f) -> valid_user_addr (esp f + 12) ->
  load_int (user_mem w) (esp f) = SYS_READ ->
  load_int (user_mem w) (esp f + 4) = 0 ->
  valid_user_addr (to_unsigned (load_int (user_mem w) (esp f + 8))) ->
  let buffer := to_unsigned (load_int (user_mem w) (esp f + 8)) in
  let size := to_unsigned (load_int (user_mem w) (esp f + 12)) in
  let keys := fst (stdin_bytes K (Z.to_nat size) (ext_state w)) in
  exists w',
    syscall_handler K f w = Returned (mkFrame (esp f) size) w' /\
    0 <= size < WORD /\
    (forall k, 0 <= k < size ->
       load8 (user_mem w') (ptr_add buffer k) = nth (Z.to_nat k) keys 0 mod 256) /\
    ext_state w' = snd (stdin_bytes K (Z.to_nat size) (ext_state w)) /\
    filesys_lock w' = false.
Proof.
  intros Hesp Htop Hnumber Hfd Hbuf buffer size keys.
  subst keys size buffer.
  set (buffer := to_unsigned (load_int (user_mem w) (esp f + 8))) in *.
  set (size := to_unsigned (load_int (user_mem w) (esp f + 12))) in *.
  eexists. split; [by apply syscall_read_stdin_run |].
  split; [apply to_unsigned_range |]. split; [| done].
  intros k Hk. cbv zeta. fold buffer size. cbn [user_mem].
  pose proof (stdin_bytes_length K (Z.to_nat size) (ext_state w)) as Hlen.
  pose proof (to_unsigned_range (load_int (user_mem w) (esp f + 12))) as Hsize.
  fold size in Hsize.
  rewrite <- (Z.add_0_l k) at 1. apply store_bytes_lookup; rewrite Hlen; lia.
Qed.

Lemma stdin_events_store (cs : list Z) : forall buffer i k,
  0 <= k < Z.of_nat (length cs) ->
  In (EvStore (ptr_add buffer (i + k)) (nth (Z.to_nat k) cs 0))
     (stdin_events buffer i cs).
Proof.
  induction cs as [| c cs IH]; intros buffer i k Hk; [simpl in Hk; lia |].
  simpl length in Hk. destruct (decide (k = 0)) as [-> | Hne].
  - simpl. rewrite Z.add_0_r. right. by left.
  - replace (Z.to_nat k) with (S (Z.to_nat (k - 1))) by lia.
    replace (i + k) with (i + 1 + (k - 1)) by lia.
    cbn [stdin_events nth]. right. right. apply IH. lia.
Qed.

(** X9.  [read] on standard input has only the first address of its
    buffer checked: with the buffer starting in the user range and
    [buffer + size] past [KERNEL_BASE], the handler returns having stored a
    keyboard byte at [KERNEL_BASE] itself, outside the user range. *)
Theorem syscall_read_stdin_stores_past_user_range f w :
  valid_user_addr (esp f) -> valid_user_addr (esp f + 12) ->
  load_int (user_mem w) (esp f) = SYS_READ ->
  load_int (user_mem w) (esp f + 4) = 0 ->
  valid_user_addr (to_unsigned (load_int (user_mem w) (esp f + 8))) ->
  let buffer := to_unsigned (load_int (user_mem w) (esp f + 8)) in
  let size := to_unsigned (load_int (user_mem w) (esp f + 12)) in
  let keys := fst (stdin_bytes K (Z.to_nat size) (ext_state w)) in
  buffer + size > KERNEL_BASE ->
  exists fr w',
    syscall_handler K f w = Returned fr w' /\
    ~ valid_user_addr KERNEL_BASE /\
    In (EvStore KERNEL_BASE (nth (Z.to_nat (KERNEL_BASE - buffer)) keys 0))
       (trace w') /\
    load8 (user_mem w') KERNEL_BASE
      = nth (Z.to_nat (KERNEL_BASE - buffer)) keys 0 mod 256.
Proof.
  intros Hesp Htop Hnumber Hfd Hbuf buffer size keys Hpast.
  subst keys size buffer.
  set (buffer := to_unsigned (load_int (user_mem w) (esp f + 8))) in *.
  set (size := to_unsigned (load_int (user_mem w) (esp f + 12))) in *.
  pose proof (stdin_bytes_length K (Z.to_nat size) (ext_state w)) as Hlen.
  pose proof (to_unsigned_range (load_int (user_mem w) (esp f + 12))) as Hsize.
  fold size in Hsize.
  assert (Hk : 0 <= KERNEL_BASE - buffer < size).
  { unfold valid_user_addr in Hbuf. lia. }
  assert (Haddr : ptr_add buffer (0 + (KERNEL_BASE - buffer)) = KERNEL_BASE).
  { unfold ptr_add.
    replace (buffer + (0 + (KERNEL_BASE - buffer))) with KERNEL_BASE by lia.
    reflexivity. }
  eexists _, _. split; [by apply syscall_read_stdin_run |].
  split; [unfold valid_user_addr; lia |]. cbv zeta. fold buffer size. split.
  - cbn [trace]. apply in_or_app. right. apply in_or_app. right.
    apply in_or_app. left. rewrite <- Haddr at 1.
    apply stdin_events_store. rewrite Hlen. lia.
  - cbn [user_mem]. rewrite <- Haddr at 1.
    apply store_bytes_lookup; rewrite Hlen; lia.
Qed.

(** ** [write] and [read] on descriptors *)

Ltac run_call :=
  unfold bind, ret, lock_acquire, lock_release, filesys_open,
    strcmp_cur_name, file_deny_write, process_add_file, process_get_file,
    file_read, file_write, putbuf, ext_call, with_lock, with_ext, with_mem, log;
  simpl.

(** X10.  [write] on descriptor 1, whatever the descriptor table holds:
    it hands the whole buffer to the console in one [putbuf], between
    taking the lock and releasing it, leaves user memory as it was and
    returns; the [int] it returns is the size when the size is at most
    [INT_MAX], and the size less 2^32 above that. *)
Theorem write_stdout_reports_size buffer (n : Z) w :
  0 <= n < WORD ->
  exists r w',
    write K 1 buffer n w = Returned r w' /\
    (n <= INT_MAX -> r = n) /\
    (INT_MAX < n -> r = n - WORD) /\
    trace w' = trace w ++ [EvLockAcquire; EvProcessGetFile 1;
                           EvPutbuf buffer n; EvLockRelease] /\
    ext_state w' = impl_putbuf K buffer n (user_mem w) (ext_state w) /\
    user_mem w' = user_mem w /\
    filesys_lock w' = false.
Proof.
  intros Hn. unfold write. run_call.
  eexists _, _. split; [reflexivity |].
  split; [intros Hle; apply to_int_small; unfold INT_MIN; lia |].
  split; [intros Hgt; apply to_int_large; lia |].
  split; [simpl; by rewrite <- !app_assoc | done].
Qed.

(** X11.  [read] on a descriptor other than 0 (descriptor 1 and negative
    numbers included) goes through the descriptor table.  When the table
    has no handle for it, [read] returns -1 without calling [file_read]
    and leaves user memory and the collaborators as they were; otherwise it
    returns the count [file_read] gives, with memory as [file_read] left
    it.  Either way the lock was taken and is free again. *)
Theorem read_file_descriptor fd buffer size w :
  fd <> 0 ->
  let f := impl_process_get_file K fd (ext_state w) in
  (f = NULL ->
     exists w',
       read K fd buffer size w = Returned (-1) w' /\
       trace w' = trace w ++ [EvLockAcquire; EvProcessGetFile fd; EvLockRelease] /\
       user_mem w' = user_mem w /\ ext_state w' = ext_state w /\
       filesys_lock w' = false) /\
  (f <> NULL ->
     exists w',
       read K fd buffer size w
         = Returned (fst (fst (impl_file_read K f buffer size (user_mem w)
                                 (ext_state w)))) w' /\
       trace w' = trace w ++ [EvLockAcquire; EvProcessGetFile fd;
                              EvFileRead f buffer size; EvLockRelease] /\
       user_mem w' = snd (fst (impl_file_read K f buffer size (user_mem w)
                                 (ext_state w))) /\
       ext_state w' = snd (impl_file_read K f buffer size (user_mem w)
                             (ext_state w)) /\
       filesys_lock w' = false).
Proof.
  intros Hfd f. subst f. unfold read.
  rewrite (proj2 (Z.eqb_neq fd 0) Hfd). run_call. split.
  - intros ->. simpl. eexists. split; [reflexivity |].
    split; [simpl; by rewrite <- !app_assoc | done].
  - intros Hf. rewrite (proj2 (Z.eqb_neq _ _) Hf). simpl.
    destruct (impl_file_read K _ buffer size (user_mem w) (ext_state w))
      as [[cnt m] s1].
    simpl. eexists. split; [reflexivity |].
    split; [simpl; by rewrite <- !app_assoc | done].
Qed.

(** X12.  [write] on a descriptor other than 1 (descriptor 0 and negative
    numbers included) goes through the descriptor table.  When the table
    has no handle for it, [write] returns -1 without calling [file_write]
    and leaves the collaborators as they were; otherwise it returns the
    count [file_write] gives.  It never changes user memory, and the lock
    was taken and is free again. *)
Theorem write_file_descriptor fd buffer size w :
  fd <> 1 ->
  let f := impl_process_get_file K fd (ext_state w) in
  (f = NULL ->
     exists w',
       write K fd buffer size w = Returned (-1) w' /\
       trace w' = trace w ++ [EvLockAcquire; EvProcessGetFile fd; EvLockRelease] /\
       user_mem w' = user_mem w /\ ext_state w' = ext_state w /\
       filesys_lock w' = false) /\
  (f <> NULL ->
     exists w',
       write K fd buffer size w
         = Returned (fst (impl_file_write K f buffer size (user_mem w)
                            (ext_state w))) w' /\
       trace w' = trace w ++ [EvLockAcquire; EvProcessGetFile fd;
                              EvFileWrite f buffer size; EvLockRelease] /\
       user_mem w' = user_mem w /\
       ext_state w' = snd (impl_file_write K f buffer size (user_mem w)
                             (ext_state w)) /\
       filesys_lock w' = false).
Proof.
  intros Hfd f. subst f. unfold write.
  rewrite (proj2 (Z.eqb_neq fd 1) Hfd). run_call. split.
  - intros ->. simpl. eexists. split; [reflexivity |].
    split; [simpl; by rewrite <- !app_assoc | done].
  - intros Hf. rewrite (proj2 (Z.eqb_neq _ _) Hf). simpl.
    destruct (impl_file_write K _ buffer size (user_mem w) (ext_state w))
      as [cnt s1].
    simpl. eexists. split; [reflexivity |].
    split; [simpl; by rewrite <- !app_assoc | done].
Qed.

(** ** [open] and [exec] when the collaborators succeed *)

(** X13.  When [filesys_open] gives a file for a non-null name, [open]
    denies writes to it exactly when the name compares equal to the running
    thread's name, does so before the descriptor is allocated, and hands the
    file to [process_add_file] in either case, a full table included, all
    between one acquire and one release of the lock. *)
Theorem open_denies_write_on_own_name file w :
  file <> NULL -> fst (opened file w) <> NULL ->
  let f := fst (opened file w) in
  let own := Z.eqb (impl_strcmp K file (cur_name w) (user_mem w)) 0 in
  exists r w',
    open K file w = Returned r w' /\
    trace w' = trace w ++ [EvLockAcquire; EvFilesysOpen file]
                 ++ (if own then [EvFileDenyWrite f] else [])
                 ++ [EvProcessAddFile f; EvLockRelease] /\
    r = (if Z.eqb (fst (allocated file w)) 64 then -1
         else fst (allocated file w)) /\
    ext_state w' = snd (allocated file w) /\
    user_mem w' = user_mem w.
Proof.
  intros Hfile Hf f own. subst f own. unfold open, allocated, denied, opened in *.
  rewrite (proj2 (Z.eqb_neq _ _) Hfile). run_call.
  destruct (impl_filesys_open K file (user_mem w) (ext_state w)) as [f s1].
  simpl in *. rewrite (proj2 (Z.eqb_neq _ _) Hf). simpl.
  destruct (Z.eqb (impl_strcmp K file (cur_name w) (user_mem w)) 0); simpl;
    match goal with |- context [impl_process_add_file K ?h ?st] =>
      destruct (impl_process_add_file K h st) as [results s2] end;
    simpl; destruct (Z.eqb results 64) eqn:Hfull; simpl;
    (eexists _, _; split; [reflexivity |];
     split; [simpl; by rewrite <- !app_assoc | done]).
Qed.

(** X14.  When [get_child_process] finds the record of the process that
    [process_execute] made, [exec] goes down once on the record's load
    semaphore and only then reads the load flag: it returns the child's id
    when the flag is set and -1 when it is not. *)
Theorem exec_reports_load cmd_line w (tid cp : Z) (s1 : ext K) :
  impl_process_execute K cmd_line (user_mem w) (ext_state w) = (tid, s1) ->
  impl_get_child_process K tid s1 = cp ->
  cp <> NULL ->
  exists w',
    exec K cmd_line w
      = Returned (if impl_is_load K cp (impl_sema_down_load K cp s1)
                  then tid else -1) w' /\
    ext_state w' = impl_sema_down_load K cp s1 /\
    trace w' = trace w ++ [EvProcessExecute cmd_line; EvGetChildProcess tid;
                           EvSemaDown cp] /\
    user_mem w' = user_mem w /\ filesys_lock w' = filesys_lock w.
Proof.
  intros Hexec Hchild Hcp. unfold exec.
  unfold bind at 1, process_execute at 1, ext_call at 1. rewrite Hexec.
  unfold bind at 1, get_child_process at 1, ext_call at 1.
  cbn [fst snd ext_state with_ext log]. rewrite Hchild.
  unfold bind at 1, sema_down_load at 1, ext_call at 1.
  rewrite !(proj2 (Z.eqb_neq _ _) Hcp).
  unfold bind, is_load, ret. cbn [ext_state with_ext log].
  destruct (impl_is_load K _ _); cbn [Bool.eqb];
    (eexists; split; [reflexivity |]; split; [reflexivity |];
     split; [simpl; by rewrite <- !app_assoc | done]).
Qed.

(** ** [check_address] on the words the handler passes *)

(** X15.  The handler hands [check_address] argument words as [int]s.
    Such a word is accepted as a pointer exactly when it is at least
    [USER_BASE] or, being negative, is below -2^30: the negative words from
    -2^31 up to -2^30 - 1 are the addresses from 2^31 up to [KERNEL_BASE]. *)
Theorem check_address_on_int (v : Z) w :
  INT_MIN <= v <= INT_MAX ->
  (exists w', check_address K v w = Returned tt w') <->
  USER_BASE <= v \/ v < - 2 ^ 30.
Proof.
  intros Hv. unfold INT_MIN, INT_MAX in Hv.
  assert (Hu : to_unsigned v = if Z.ltb v 0 then v + WORD else v).
  { unfold to_unsigned. rewrite WORD_eq. destruct (Z.ltb_spec v 0).
    - replace v with (v + 4294967296 + (-1) * 4294967296) at 1 by lia.
      rewrite Z.mod_add by lia. apply Z.mod_small. lia.
    - apply Z.mod_small. lia. }
  destruct (decide (valid_user_addr (to_unsigned v))) as [Hok | Hbad].
  - rewrite check_address_valid by done. split; [intros _ | by exists w].
    unfold valid_user_addr, USER_BASE, KERNEL_BASE in *. rewrite Hu, WORD_eq in Hok.
    destruct (Z.ltb_spec v 0); lia.
  - rewrite check_address_invalid by done. split; [by intros [w' ?] |].
    intros Hrange. exfalso. apply Hbad.
    unfold valid_user_addr, USER_BASE, KERNEL_BASE in *. rewrite Hu, WORD_eq.
    destruct (Z.ltb_spec v 0); lia.
Qed.

(** ** What the handler leaves alone *)

Lemma preserves_ret {A X} (part : world K -> X) (x : A) :
  preserves part (@ret K A x).
Proof. by intros w. Qed.

Lemma preserves_bind {A B X} (part : world K -> X) (m : M K A) (k : A -> M K B) :
  preserves part m -> (forall x, preserves part (k x)) ->
  preserves part (bind m k).
Proof.
  intros Hm Hk w. specialize (Hm w). unfold bind.
  destruct (m w) as [x w1 | w1 | w1 | w1]; simpl in *; try done.
  by rewrite Hk.
Qed.

Lemma preserves_if {A X} (part : world K -> X) (b : bool) (m1 m2 : M K A) :
  preserves part m1 -> preserves part m2 ->
  preserves part (if b then m1 else m2).
Proof. by destruct b. Qed.

Ltac unfold_steps :=
  unfold process_execute, get_child_process, process_wait, process_add_file,
    process_get_file, process_close_file, filesys_create, filesys_remove,
    filesys_open, file_deny_write, file_length, file_read, file_write,
    file_seek, file_tell, sema_down_load, is_load, strcmp_cur_name,
    input_getc, putbuf, ext_call, lock_acquire, lock_release, deref_int,
    assign_byte, thread_exit, halt, shutdown_power_off, exit, bind, ret;
  repeat match goal with
         | |- context [let '(_, _) := ?x in _] => destruct x
         | |- context [if ?b then _ else _] => destruct b
         end.

Ltac preserves_prim :=
  let w := fresh "w" in intros w; unfold_steps; reflexivity.

Lemma preserves_mem_check_address a : preserves user_mem (check_address K a).
Proof. unfold check_address. apply preserves_if; preserves_prim. Qed.

Ltac preserves_steps :=
  repeat first
    [ apply preserves_ret
    | apply preserves_mem_check_address
    | apply preserves_bind; [| intros ?]
    | solve [preserves_prim]
    | apply preserves_if ].

Lemma preserves_mem_get_argument_loop (n : nat) : forall esp arg i,
  preserves user_mem (get_argument_loop K n esp arg i).
Proof.
  induction n as [| n IH]; intros esp arg i; cbn [get_argument_loop].
  - apply preserves_ret.
  - preserves_steps. apply IH.
Qed.

Lemma preserves_mem_get_argument esp arg count :
  preserves user_mem (get_argument K esp arg count).
Proof. apply preserves_mem_get_argument_loop. Qed.

(** X16.  Only the [read] system call changes user memory: for every
    other number at the stack pointer, known or not, and however the call
    ends, user memory is afterwards what it was. *)
Theorem syscall_handler_writes_memory_only_in_read f w :
  load_int (user_mem w) (esp f) <> SYS_READ ->
  user_mem (final_world (syscall_handler K f w)) = user_mem w.
Proof.
  intros Hnumber. unfold syscall_handler. unfold bind at 1.
  destruct (decide (valid_user_addr (to_unsigned (esp f)))) as [Hv | Hv];
    [| by rewrite check_address_invalid by done].
  rewrite check_address_valid by done.
  unfold bind at 1, deref_int at 1.
  rewrite (proj2 (Z.eqb_neq _ _) Hnumber). cbv iota.
  remember (load_int (user_mem w) (esp f)) as number eqn:Hload. clear Hload.
  change (user_mem w) with (user_mem (log (EvLoad (esp f)) w)).
  generalize (log (EvLoad (esp f)) w).
  match goal with
  | |- forall w0, user_mem (final_world (?m w0)) = user_mem w0 =>
      change (preserves user_mem m)
  end.
  repeat first
    [ apply preserves_mem_get_argument
    | apply preserves_ret
    | apply preserves_mem_check_address
    | apply preserves_bind; [| intros ?]
    | progress (unfold exec, wait, create, remove, open, filesize, write,
                seek, tell, close)
    | solve [preserves_prim]
    | apply preserves_if ].
Qed.

Lemma unless_exit_ret {A X} (part : world K -> X) (x : A) :
  preserves_unless_exit part (@ret K A x).
Proof. by intros w. Qed.

Lemma unless_exit_bind {A B X} (part : world K -> X) (m : M K A)
    (k : A -> M K B) :
  preserves_unless_exit part m -> (forall x, preserves_unless_exit part (k x)) ->
  preserves_unless_exit part (bind m k).
Proof.
  intros Hm Hk w. specialize (Hm w). unfold bind.
  destruct (m w) as [x w1 | w1 | w1 | w1]; simpl in *; try done.
  specialize (Hk x w1). destruct (k x w1); simpl in *; congruence.
Qed.

Lemma unless_exit_if {A X} (part : world K -> X) (b : bool) (m1 m2 : M K A) :
  preserves_unless_exit part m1 -> preserves_unless_exit part m2 ->
  preserves_unless_exit part (if b then m1 else m2).
Proof. by destruct b. Qed.

Ltac unless_exit_prim :=
  let w := fresh "w" in intros w; unfold_steps; simpl; first [reflexivity | exact I].

Lemma unless_exit_exit {A} status :
  preserves_unless_exit cur_exit_status (@exit K A status).
Proof. intros w. by rewrite exit_outcome. Qed.

Lemma unless_exit_check_address a :
  preserves_unless_exit cur_exit_status (check_address K a).
Proof. unfold check_address. apply unless_exit_if; unless_exit_prim. Qed.

Lemma unless_exit_get_argument_loop (n : nat) : forall esp arg i,
  preserves_unless_exit cur_exit_status (get_argument_loop K n esp arg i).
Proof.
  induction n as [| n IH]; intros esp arg i; cbn [get_argument_loop].
  - apply unless_exit_ret.
  - apply unless_exit_bind; [apply unless_exit_check_address | intros _].
    apply unless_exit_bind; [unless_exit_prim | intros v]. apply IH.
Qed.

Lemma unless_exit_read_stdin_loop (n : nat) : forall buffer i,
  preserves_unless_exit cur_exit_status (read_stdin_loop K n buffer i).
Proof.
  induction n as [| n IH]; intros buffer i; cbn [read_stdin_loop].
  - apply unless_exit_ret.
  - apply unless_exit_bind; [unless_exit_prim | intros c].
    apply unless_exit_bind; [unless_exit_prim | intros _]. apply IH.
Qed.

(** X17.  The exit status of the process record is written only on the
    way out of the thread: whenever the handler returns to the user
    program, powers the machine off or faults, the status is what it was
    before the call. *)
Theorem syscall_handler_keeps_exit_status f w w' :
  (exists f', syscall_handler K f w = Returned f' w') \/
  syscall_handler K f w = PoweredOff w' \/
  syscall_handler K f w = Faulted w' ->
  cur_exit_status w' = cur_exit_status w.
Proof.
  assert (H : preserves_unless_exit cur_exit_status (syscall_handler K f)).
  { unfold syscall_handler.
    repeat first
      [ apply unless_exit_get_argument_loop
      | apply unless_exit_exit
      | apply unless_exit_read_stdin_loop
      | apply unless_exit_ret
      | apply unless_exit_check_address
      | apply unless_exit_bind; [| intros ?]
      | progress (unfold get_argument, exec, wait, create, remove, open,
                  filesize, read, write, seek, tell, close)
      | solve [unless_exit_prim]
      | apply unless_exit_if ]. }
  specialize (H w). intros [[f' Hrun] | [Hrun | Hrun]];
    rewrite Hrun in H; exact H.
Qed.

(** ** [create] and [remove] through the handler *)

(** X18.  [create] and [remove] on a valid stack with a name address in
    the user range: the handler calls the file system once, with the name
    pointer and, for [create], the size word read as an [unsigned], takes
    no lock, and returns with [eax] 1 when the file system reported success
    and 0 when it did not. *)
Theorem syscall_create_remove_result f w :
  valid_user_addr (esp f) ->
  valid_user_addr (to_unsigned (load_int (user_mem w) (esp f + 4))) ->
  let name := to_unsigned (load_int (user_mem w) (esp f + 4)) in
  let size := to_unsigned (load_int (user_mem w) (esp f + 8)) in
  (load_int (user_mem w) (esp f) = SYS_CREATE ->
   valid_user_addr (esp f + 8) ->
     exists w',
       syscall_handler K f w
         = Returned (mkFrame (esp f)
                       (of_bool (fst (impl_filesys_create K name size
                                        (user_mem w) (ext_state w))))) w' /\
       ext_state w' = snd (impl_filesys_create K name size
                             (user_mem w) (ext_state w)) /\
       trace w' = trace w ++ [EvLoad (esp f); EvLoad (esp f + 4);
                              EvLoad (esp f + 8); EvFilesysCreate name size]) /\
  (load_int (user_mem w) (esp f) = SYS_REMOVE ->
   valid_user_addr (esp f + 4) ->
     exists w',
       syscall_handler K f w
         = Returned (mkFrame (esp f)
                       (of_bool (fst (impl_filesys_remove K name
                                        (user_mem w) (ext_state w))))) w' /\
       ext_state w' = snd (impl_filesys_remove K name
                             (user_mem w) (ext_state w)) /\
       trace w' = trace w ++ [EvLoad (esp f); EvLoad (esp f + 4);
                              EvFilesysRemove name]).
Proof.
  intros Hesp Hname name size.
  assert (Hnonnull : name <> NULL).
  { intros Heq. subst name. rewrite Heq in Hname.
    unfold valid_user_addr, NULL, USER_BASE in Hname. lia. }
  assert (Hbool : forall b, to_unsigned (of_bool b) = of_bool b).
  { by intros []. }
  split.
  - intros Hnumber Htop. enter_switch Hesp Hnumber.
    destruct (get_argument_valid (esp f) 2 (log (EvLoad (esp f)) w))
      as (arg' & Hrun & Hval); [by apply valid_is_pointer | lia | |].
    { apply slots_valid; [done |]. unfold slot.
      by replace (esp f + 4 + 4 * (2 - 1)) with (esp f + 8) by lia. }
    pose proof (Hval 0 ltac:(lia)) as H0. pose proof (Hval 1 ltac:(lia)) as H1.
    clear Hval.
    change (Z.to_nat 0) with 0%nat in H0. change (Z.to_nat 1) with 1%nat in H1.
    unfold slot in H0, H1. simpl user_mem in H0, H1.
    replace (esp f + 4 + 4 * 0) with (esp f + 4) in H0 by lia.
    replace (esp f + 4 + 4 * 1) with (esp f + 8) in H1 by lia.
    rewrite (bind_returned K _ _ _ _ _ Hrun). rewrite H0, H1.
    fold name size.
    rewrite (bind_returned K _ _ _ tt _) by (apply check_address_valid; exact Hname).
    unfold create. rewrite (proj2 (Z.eqb_neq _ _) Hnonnull).
    unfold bind, filesys_create, ext_call, ret, set_eax. simpl.
    destruct (impl_filesys_create K name size (user_mem w) (ext_state w)) as [b s1].
    simpl. rewrite Hbool. eexists. split; [reflexivity |]. split; [reflexivity |].
    simpl. rewrite <- !app_assoc.
    change (slot_loads (esp f) 2)
      with [EvLoad (slot (esp f) 0); EvLoad (slot (esp f) 1)].
    unfold slot.
    replace (esp f + 4 + 4 * 0) with (esp f + 4) by lia.
    replace (esp f + 4 + 4 * 1) with (esp f + 8) by lia.
    reflexivity.
  - intros Hnumber Htop. enter_switch Hesp Hnumber.
    destruct (get_argument_valid (esp f) 1 (log (EvLoad (esp f)) w))
      as (arg' & Hrun & Hval); [by apply valid_is_pointer | lia | |].
    { intros i Hi. replace i with 0 by lia. unfold slot.
      by replace (esp f + 4 + 4 * 0) with (esp f + 4) by lia. }
    pose proof (Hval 0 ltac:(lia)) as H0. clear Hval.
    change (Z.to_nat 0) with 0%nat in H0.
    unfold slot in H0. simpl user_mem in H0.
    replace (esp f + 4 + 4 * 0) with (esp f + 4) in H0 by lia.
    rewrite (bind_returned K _ _ _ _ _ Hrun). rewrite H0.
    fold name.
    rewrite (bind_returned K _ _ _ tt _) by (apply check_address_valid; exact Hname).
    unfold remove. rewrite (proj2 (Z.eqb_neq _ _) Hnonnull).
    unfold bind, filesys_remove, ext_call, ret, set_eax. simpl.
    destruct (impl_filesys_remove K name (user_mem w) (ext_state w)) as [b s1].
    simpl. rewrite Hbool. eexists. split; [reflexivity |]. split; [reflexivity |].
    simpl. rewrite <- !app_assoc.
    change (slot_loads (esp f) 1) with [EvLoad (slot (esp f) 0)].
    unfold slot.
    replace (esp f + 4 + 4 * 0) with (esp f + 4) by lia.
    reflexivity.
Qed.

End Coverage.

(** * More of the handler on the small kernel *)

Ltac in_user_range := vm_compute; split; [discriminate | reflexivity].

Lemma syscall_handler_reads_user_range_witness :
  exists evs,
    trace (final_world (syscall_handler toy toy_frame
                          (toy_world (toy_mem SYS_READ 0 TOY_NAME 2))))
      = [] ++ evs /\
    Forall (fun e => match e with
                     | EvLoad a => USER_BASE <= a < KERNEL_BASE
                     | _ => True
                     end) evs.
Proof.
  apply (syscall_handler_reads_user_range toy toy_frame
           (toy_world (toy_mem SYS_READ 0 TOY_NAME 2))).
  apply valid_is_pointer, toy_esp_valid.
Defined.


(** [open ("a")] returns descriptor 2 in [eax]. *)
Lemma syscall_handler_returned_frame_witness :
  exists f' w',
    syscall_handler toy toy_frame (toy_world (toy_mem SYS_OPEN TOY_NAME 0 0))
      = Returned f' w' /\
    esp f' = TOY_ESP /\ eax f' = 2.
Proof.
  eexists _, _.
  match goal with
  | |- ?run = Returned ?fr ?wr /\ _ =>
      assert (Hrun : run = Returned fr wr) by reflexivity
  end.
  split; [exact Hrun |].
  destruct (syscall_handler_returned_frame toy _ _ _ _ Hrun) as (_ & Hesp & _).
  split; [exact Hesp | reflexivity].
Defined.

(** A null stack pointer. *)
Lemma syscall_handler_rejects_stack_pointer_witness :
  exists w',
    syscall_handler toy (mkFrame 0 0) (toy_world (toy_mem SYS_OPEN TOY_NAME 0 0))
      = ThreadExited w' /\
    cur_exit_status w' = -1.
Proof.
  destruct (syscall_handler_rejects_stack_pointer toy (mkFrame 0 0)
              (toy_world (toy_mem SYS_OPEN TOY_NAME 0 0)))
    as (w' & Hrun & Hstatus & _).
  - vm_compute. split; [discriminate | reflexivity].
  - vm_compute. intros [Hlow _]. apply Hlow. reflexivity.
  - exists w'. split; [exact Hrun | exact Hstatus].
Defined.

(** [exit (7)]. *)
Lemma syscall_halt_exit_end_process_witness :
  exists w',
    syscall_handler toy toy_frame (toy_world (toy_mem SYS_EXIT 7 0 0))
      = ThreadExited w' /\
    cur_exit_status w' = 7.
Proof.
  destruct (syscall_halt_exit_end_process toy toy_frame
              (toy_world (toy_mem SYS_EXIT 7 0 0)) toy_esp_valid)
    as [_ Hexit].
  destruct (Hexit eq_refl) as (w' & Hrun & Hstatus & _); [in_user_range |].
  exists w'. split; [exact Hrun | exact Hstatus].
Defined.

(** [open] on a kernel address. *)
Lemma invalid_pointer_argument_exits_witness :
  exists w',
    syscall_handler toy toy_frame (toy_world (toy_mem SYS_OPEN KERNEL_BASE 0 0))
      = ThreadExited w' /\
    cur_exit_status w' = -1.
Proof.
  destruct (invalid_pointer_argument_exits toy toy_frame 0
              (toy_world (toy_mem SYS_OPEN KERNEL_BASE 0 0))
              toy_esp_valid eq_refl)
    as (loads & w' & Hrun & Hstatus & _).
  - vm_compute. intros [_ Hhigh]. discriminate Hhigh.
  - exists w'. split; [exact Hrun | exact Hstatus].
Defined.

(** Two keys read through the handler. *)
Lemma syscall_read_stdin_result_witness :
  exists w',
    syscall_handler toy toy_frame (toy_world (toy_mem SYS_READ 0 TOY_NAME 2))
      = Returned (mkFrame TOY_ESP 2) w' /\
    load8 (user_mem w') (ptr_add TOY_NAME 1) = 105.
Proof.
  destruct (syscall_read_stdin_result toy toy_frame
              (toy_world (toy_mem SYS_READ 0 TOY_NAME 2))
              toy_esp_valid)
    as (w' & Hrun & _ & Hbytes & _);
    [in_user_range | reflexivity | reflexivity | in_user_range |].
  exists w'. split; [exact Hrun |]. apply (Hbytes 1). vm_compute. by split.
Defined.

(** Two keys read into the last byte of the user range and the one after. *)
Lemma syscall_read_stdin_stores_past_user_range_witness :
  exists fr w',
    syscall_handler toy toy_frame
      (toy_world (toy_mem SYS_READ 0 (KERNEL_BASE - 1) 2)) = Returned fr w' /\
    In (EvStore KERNEL_BASE 105) (trace w').
Proof.
  destruct (syscall_read_stdin_stores_past_user_range toy toy_frame
              (toy_world (toy_mem SYS_READ 0 (KERNEL_BASE - 1) 2))
              toy_esp_valid)
    as (fr & w' & Hrun & _ & Hstore & _);
    [in_user_range | reflexivity | reflexivity | in_user_range
    | vm_compute; reflexivity |].
  exists fr, w'. split; [exact Hrun | exact Hstore].
Defined.

Lemma write_stdout_reports_size_witness :
  exists r w',
    write toy 1 TOY_NAME 2 (toy_world (toy_mem SYS_WRITE 1 TOY_NAME 2))
      = Returned r w' /\
    r = 2.
Proof.
  destruct (write_stdout_reports_size toy TOY_NAME 2
              (toy_world (toy_mem SYS_WRITE 1 TOY_NAME 2)))
    as (r & w' & Hrun & Hsmall & _).
  - rewrite WORD_eq. lia.
  - exists r, w'. split; [exact Hrun |]. apply Hsmall. unfold INT_MAX. lia.
Defined.

(** Descriptor 5 with nothing open. *)
Lemma read_file_descriptor_witness :
  exists w',
    read toy 5 TOY_NAME 2 (toy_world (toy_mem SYS_READ 5 TOY_NAME 2))
      = Returned (-1) w' /\
    user_mem w' = toy_mem SYS_READ 5 TOY_NAME 2.
Proof.
  destruct (read_file_descriptor toy 5 TOY_NAME 2
              (toy_world (toy_mem SYS_READ 5 TOY_NAME 2))) as [Hnone _].
  - discriminate.
  - destruct (Hnone eq_refl) as (w' & Hrun & _ & Hmem & _).
    exists w'. split; [exact Hrun | exact Hmem].
Defined.

(** [write] on descriptor 0 with nothing open. *)
Lemma write_file_descriptor_witness :
  exists w',
    write toy 0 TOY_NAME 2 (toy_world (toy_mem SYS_WRITE 0 TOY_NAME 2))
      = Returned (-1) w' /\
    filesys_lock w' = false.
Proof.
  destruct (write_file_descriptor toy 0 TOY_NAME 2
              (toy_world (toy_mem SYS_WRITE 0 TOY_NAME 2))) as [Hnone _].
  - discriminate.
  - destruct (Hnone eq_refl) as (w' & Hrun & _ & _ & _ & Hfree).
    exists w'. split; [exact Hrun | exact Hfree].
Defined.

(** Opening "a" as process "sh": no deny-write. *)
Lemma open_denies_write_on_own_name_witness :
  exists r w',
    open toy TOY_NAME (toy_world (toy_mem SYS_OPEN TOY_NAME 0 0)) = Returned r w' /\
    trace w' = [EvLockAcquire; EvFilesysOpen TOY_NAME;
                EvProcessAddFile (TOY_FILES + 97); EvLockRelease].
Proof.
  destruct (open_denies_write_on_own_name toy TOY_NAME
              (toy_world (toy_mem SYS_OPEN TOY_NAME 0 0)))
    as (r & w' & Hrun & Htrace & _).
  - discriminate.
  - vm_compute. discriminate.
  - exists r, w'. split; [exact Hrun | exact Htrace].
Defined.

(** Executing "a": the child is thread 3 and has loaded. *)
Lemma exec_reports_load_witness :
  exists w',
    exec toy TOY_NAME (toy_world (toy_mem SYS_EXEC TOY_NAME 0 0))
      = Returned 3 w'.
Proof.
  destruct (exec_reports_load toy TOY_NAME
              (toy_world (toy_mem SYS_EXEC TOY_NAME 0 0))
              3 (TOY_THREADS + 3)
              (mkToy [] [97] [104; 105] [(3, true)] 0))
    as (w' & Hrun & _).
  - reflexivity.
  - reflexivity.
  - discriminate.
  - exists w'. exact Hrun.
Defined.

(** The most negative word is the address 2^31. *)
Lemma check_address_on_int_witness :
  exists w',
    check_address toy INT_MIN (toy_world (toy_mem SYS_OPEN TOY_NAME 0 0))
      = Returned tt w'.
Proof.
  apply (check_address_on_int toy INT_MIN
           (toy_world (toy_mem SYS_OPEN TOY_NAME 0 0))).
  - unfold INT_MIN, INT_MAX. lia.
  - right. unfold INT_MIN. lia.
Defined.

Lemma syscall_handler_writes_memory_only_in_read_witness :
  user_mem (final_world
              (syscall_handler toy toy_frame
                 (toy_world (toy_mem SYS_OPEN TOY_NAME 0 0))))
    = toy_mem SYS_OPEN TOY_NAME 0 0.
Proof.
  apply (syscall_handler_writes_memory_only_in_read toy toy_frame
           (toy_world (toy_mem SYS_OPEN TOY_NAME 0 0))).
  vm_compute. discriminate.
Defined.

Lemma syscall_handler_keeps_exit_status_witness :
  exists f' w',
    syscall_handler toy toy_frame (toy_world (toy_mem SYS_OPEN TOY_NAME 0 0))
      = Returned f' w' /\
    cur_exit_status w' = 0.
Proof.
  eexists _, _.
  match goal with
  | |- ?run = Returned ?fr ?wr /\ _ =>
      assert (Hrun : run = Returned fr wr) by reflexivity
  end.
  split; [exact Hrun |].
  apply (syscall_handler_keeps_exit_status toy toy_frame
           (toy_world (toy_mem SYS_OPEN TOY_NAME 0 0))).
  left. eexists. exact Hrun.
Defined.

(** Creating "a", which exists: [eax] is 0. *)
Lemma syscall_create_remove_result_witness :
  exists w',
    syscall_handler toy toy_frame (toy_world (toy_mem SYS_CREATE TOY_NAME 0 0))
      = Returned (mkFrame TOY_ESP 0) w'.
Proof.
  destruct (syscall_create_remove_result toy toy_frame
              (toy_world (toy_mem SYS_CREATE TOY_NAME 0 0)) toy_esp_valid)
    as [Hcreate _]; [in_user_range |].
  destruct (Hcreate eq_refl) as (w' & Hrun & _); [in_user_range |].
  exists w'. exact Hrun.
Defined.
